(** * A composable data-validation algebra: [spec.py]

    The module under verification defines a two-variant outcome type
    ([Valid] / [Invalid]) with monadic and applicative operations, and a
    family of specification nodes ([Predicate], [Member], [Type], [All],
    [Chain], [Alt], [Keys], [Key]) that share the contract
    [conform] / [validate].

    Python calls either return a value or raise; this is written out with
    an error monad [py].  Python objects that the specifications inspect
    (ints, strings, tuples, lists, dicts) are the inductive type [pyval]. *)

From Stdlib Require Import List ZArith String Bool Lia.
Import ListNotations.
Set Warnings "-register-all".
Local Open Scope Z_scope.
Local Open Scope string_scope.
Local Open Scope list_scope.

(* ===================================================================== *)
(** ** Outcomes of a Python call *)
(* ===================================================================== *)

(** The exception kinds the modelled code paths can raise. *)
Inductive exn : Type :=
| TypeError
| KeyError
| IndexError
| AttributeError
| UserError (name : string).

(** A call returns ([Ret]) or raises ([Raise]). *)
Inductive py (A : Type) : Type :=
| Ret (a : A)
| Raise (e : exn).
Arguments Ret {A} a.
Arguments Raise {A} e.

Definition bind {A B : Type} (c : py A) (k : A -> py B) : py B :=
  match c with
  | Ret a => k a
  | Raise e => Raise e
  end.

Declare Scope py_scope.
Delimit Scope py_scope with py.
Notation "x <- c ;; k" := (bind c (fun x => k))
  (at level 61, c at next level, right associativity) : py_scope.
Local Open Scope py_scope.

(** [returns c] holds when the call does not raise. *)
Definition returns {A : Type} (c : py A) : Prop := exists a, c = Ret a.

(** The binary [+] of Python, on the payload types that support it. *)
Class PyAdd (E : Type) : Type := py_add : E -> E -> py E.

#[export] Instance PyAdd_list {A : Type} : PyAdd (list A) :=
  fun l1 l2 => Ret (l1 ++ l2).
#[export] Instance PyAdd_Z : PyAdd Z :=
  fun x y => Ret (x + y)%Z.
#[export] Instance PyAdd_string : PyAdd string :=
  fun s t => Ret (s ++ t)%string.

(* ===================================================================== *)
(** ** The helper module [funklib.core.prelude] *)
(* ===================================================================== *)

Module prelude.

(** Modelled from the spec: [const] of the external utility module, which
    is not part of the sources; "return a constant function". *)
Definition const {A B : Type} (x : A) : B -> A := fun _ => x.

(** Modelled from the spec: [identity] of the external utility module. *)
Definition identity {A : Type} (x : A) : A := x.

(** Modelled from the spec: [throw] of the external utility module;
    "raise the error value as a fault". *)
Definition throw {A : Type} (e : exn) : py A := Raise e.

(** Modelled from the spec: [sep_by] of the external utility module;
    "a pure utility function taking a predicate and a sequence, returning
    two ordered sequences (matches, non-matches)". *)
Definition sep_by {A : Type} (pred : A -> bool) (l : list A)
  : list A * list A :=
  (filter pred l, filter (fun x => negb (pred x)) l).

End prelude.

(* ===================================================================== *)
(** ** The result algebra: [class Validated] *)
(* ===================================================================== *)

(** [Valid(x)] and [Invalid(e)] are one-element tuples tagged by their
    class.  The two payload positions get a type parameter each. *)
Inductive validated (A E : Type) : Type :=
| Valid (x : A)
| Invalid (e : E).
Arguments Valid {A E} x.
Arguments Invalid {A E} e.

Module Validated.
Section Ops.
Context {A E : Type}.

(** [verify]: the single dispatch point.  The result type [C] is whatever
    the callbacks produce; where a callback may raise, [C] is a [py]
    type.  The [raise TypeError] branch of the source is for an object
    that is neither class, which the closed sum type does not contain. *)
Definition verify {C : Type} (valid : A -> C) (invalid : E -> C)
    (self : validated A E) : C :=
  match self with
  | Valid x => valid x
  | Invalid e => invalid e
  end.

Definition is_valid (self : validated A E) : bool :=
  verify (prelude.const true) (prelude.const false) self.

Definition is_invalid (self : validated A E) : bool :=
  verify (prelude.const false) (prelude.const true) self.

(** [self[0]]: the held payload, whichever class holds it. *)
Definition payload (self : validated A E) : A + E :=
  match self with
  | Valid x => inl x
  | Invalid e => inr e
  end.

(** [then]: on the [Invalid] side [prelude.const(self)] hands back
    [self], that is [Invalid e] with the payload it already has. *)
Definition then_ {B : Type} (f : A -> py (validated B E))
    (self : validated A E) : py (validated B E) :=
  verify f (fun e => prelude.const (Ret (Invalid e)) e) self.

Definition map {B : Type} (f : A -> py B) (self : validated A E)
  : py (validated B E) :=
  verify (fun x => y <- f x ;; Ret (Valid y))
         (fun e => prelude.const (Ret (Invalid e)) e) self.

Definition catch {E' : Type} (f : E -> py (validated A E'))
    (self : validated A E) : py (validated A E') :=
  verify (fun x => prelude.const (Ret (Valid x)) x) f self.

Definition map_error {E' : Type} (f : E -> py E') (self : validated A E)
  : py (validated A E') :=
  verify (fun x => prelude.const (Ret (Valid x)) x)
         (fun e => e' <- f e ;; Ret (Invalid e')) self.

(** [throw]: the callback's result is what gets raised. *)
Definition throw (f : E -> py exn) (self : validated A E)
  : py (validated A E) :=
  verify (fun x => prelude.const (Ret (Valid x)) x)
         (fun e => x <- f e ;; prelude.throw x) self.

(** [collect]: [op.itemgetter(0)] is [payload]. *)
Definition collect (validated_ : list (validated A E))
  : validated (list (A + E)) (list (A + E)) :=
  let '(vals, invs) := prelude.sep_by is_valid validated_ in
  if (0 <? Z.of_nat (List.length invs))%Z
  then Invalid (List.map payload invs)
  else Valid (List.map payload vals).

Definition wrap (valid : bool) (value : A) : validated A A :=
  if valid then Valid value else Invalid value.

Definition from_predicate (pred : A -> py bool) (value : A)
  : py (validated A A) :=
  b <- pred value ;; Ret (wrap b value).

End Ops.

(** [ap]: [self] holds a function when valid.  In the source both nested
  callbacks name their parameter [e]; the body [Invalid(e + e)] of the
  inner one therefore reads the inner [e], the payload of [other]. *)
Definition ap {A B E : Type} `{PyAdd E}
  (self : validated (A -> py B) E) (other : validated A E)
: py (validated B E) :=
verify
  (fun f => map f other)
  (fun e => verify
              (fun y => prelude.const (Ret (Invalid e)) y)
              (fun e => s <- py_add e e ;; Ret (Invalid s))
              other)
  self.

End Validated.

(* ===================================================================== *)
(** ** Python data *)
(* ===================================================================== *)

(** The objects handed to specifications.  A dict is its list of items;
    lookup takes the first item whose key compares equal, so every list
    denotes a dict. *)
Inductive pyval : Type :=
| VNone
| VBool (b : bool)
| VInt (z : Z)
| VStr (s : string)
| VTuple (items : list pyval)
| VList (items : list pyval)
| VDict (items : list (pyval * pyval)).

(** The classes [isinstance] is asked about. *)
Inductive pytype : Type :=
| TObject | TNoneType | TBool | TInt | TStr | TTuple | TList | TDict.

(** [a == b].  [bool] is a subclass of [int], so [True == 1]. *)
Fixpoint py_eq (a b : pyval) {struct a} : bool :=
  match a, b with
  | VNone, VNone => true
  | VBool x, VBool y => Bool.eqb x y
  | VBool x, VInt z => (Z.b2z x =? z)%Z
  | VInt z, VBool x => (z =? Z.b2z x)%Z
  | VInt x, VInt y => (x =? y)%Z
  | VStr s, VStr t => String.eqb s t
  | VTuple l, VTuple m =>
      (fix go (l m : list pyval) {struct l} : bool :=
         match l, m with
         | [], [] => true
         | x :: l', y :: m' => py_eq x y && go l' m'
         | _, _ => false
         end) l m
  | VList l, VList m =>
      (fix go (l m : list pyval) {struct l} : bool :=
         match l, m with
         | [], [] => true
         | x :: l', y :: m' => py_eq x y && go l' m'
         | _, _ => false
         end) l m
  | VDict d, VDict e =>
      (List.length d =? List.length e)%nat &&
      (fix all (d : list (pyval * pyval)) {struct d} : bool :=
         match d with
         | [] => true
         | (k, v) :: d' =>
             (fix find (e : list (pyval * pyval)) : bool :=
                match e with
                | [] => false
                | (k', v') :: e' => if py_eq k k' then py_eq v v' else find e'
                end) e && all d'
         end) d
  | _, _ => false
  end.

(** Objects with a hash: what a dict or a frozenset accepts as a key. *)
Fixpoint hashable (v : pyval) : bool :=
  match v with
  | VNone | VBool _ | VInt _ | VStr _ => true
  | VTuple l =>
      (fix go (l : list pyval) : bool :=
         match l with
         | [] => true
         | x :: l' => hashable x && go l'
         end) l
  | VList _ | VDict _ => false
  end.

(** [bool(v)]. *)
Definition truthy (v : pyval) : bool :=
  match v with
  | VNone => false
  | VBool b => b
  | VInt z => negb (z =? 0)%Z
  | VStr s => negb (String.eqb s "")
  | VTuple l | VList l => match l with [] => false | _ => true end
  | VDict d => match d with [] => false | _ => true end
  end.

Definition isinstance (v : pyval) (t : pytype) : bool :=
  match t, v with
  | TObject, _ => true
  | TNoneType, VNone => true
  | TBool, VBool _ => true
  | TInt, (VInt _ | VBool _) => true
  | TStr, VStr _ => true
  | TTuple, VTuple _ => true
  | TList, VList _ => true
  | TDict, VDict _ => true
  | _, _ => false
  end.

(** First item of a dict whose key equals [k]. *)
Fixpoint dict_lookup (d : list (pyval * pyval)) (k : pyval) : option pyval :=
  match d with
  | [] => None
  | (k', v) :: d' => if py_eq k' k then Some v else dict_lookup d' k
  end.

(** [x in s] for a collection of hashed keys [s]. *)
Definition key_in (k : pyval) (keys : list pyval) : bool :=
  existsb (fun k' => py_eq k' k) keys.

(** An object usable as a sequence index. *)
Definition as_index (k : pyval) : option Z :=
  match k with
  | VInt z => Some z
  | VBool b => Some (Z.b2z b)
  | _ => None
  end.

Definition seq_index {A : Type} (l : list A) (i : Z) : py A :=
  let n := Z.of_nat (List.length l) in
  let j := if (i <? 0)%Z then (i + n)%Z else i in
  if (j <? 0)%Z || (n <=? j)%Z then Raise IndexError
  else match nth_error l (Z.to_nat j) with
       | Some x => Ret x
       | None => Raise IndexError
       end.

(** [value[key]]. *)
Definition getitem (value key : pyval) : py pyval :=
  match value with
  | VDict d =>
      if hashable key
      then match dict_lookup d key with
           | Some v => Ret v
           | None => Raise KeyError
           end
      else Raise TypeError
  | VList l | VTuple l =>
      match as_index key with
      | Some i => seq_index l i
      | None => Raise TypeError
      end
  | VStr s =>
      match as_index key with
      | Some i => c <- seq_index (list_ascii_of_string s) i ;;
                  Ret (VStr (String c EmptyString))
      | None => Raise TypeError
      end
  | VNone | VBool _ | VInt _ => Raise TypeError
  end.

(** [key in value]. *)
Definition contains (value key : pyval) : py bool :=
  match value with
  | VDict d =>
      if hashable key
      then Ret (match dict_lookup d key with Some _ => true | None => false end)
      else Raise TypeError
  | VList l | VTuple l => Ret (existsb (fun x => py_eq x key) l)
  | VStr s =>
      match key with
      | VStr k => Ret (match String.index 0 k s with
                       | Some _ => true
                       | None => false
                       end)
      | _ => Raise TypeError
      end
  | VNone | VBool _ | VInt _ => Raise TypeError
  end.

(** [value.keys()]: only a dict has the attribute. *)
Definition keys (value : pyval) : py (list pyval) :=
  match value with
  | VDict d => Ret (List.map fst d)
  | _ => Raise AttributeError
  end.

(** [a <= b] between a frozenset and a keys view, either way round. *)
Definition set_le (a b : list pyval) : bool :=
  forallb (fun x => key_in x b) a.

(** [x in s] for a frozenset [s] ([op.contains]): the probe is hashed. *)
Definition frozenset_contains (s : list pyval) (x : pyval) : py bool :=
  if hashable x then Ret (key_in x s) else Raise TypeError.

(** [all(...)] and [any(...)] over a lazily produced sequence of calls:
    the first decisive element ends the scan, a raising one ends it too. *)
Fixpoint py_all (l : list (py bool)) : py bool :=
  match l with
  | [] => Ret true
  | c :: l' => b <- c ;; if b then py_all l' else Ret false
  end.

Fixpoint py_any (l : list (py bool)) : py bool :=
  match l with
  | [] => Ret false
  | c :: l' => b <- c ;; if b then Ret true else py_any l'
  end.

(* ===================================================================== *)
(** ** Specification nodes *)
(* ===================================================================== *)

(** One constructor per concrete class.  [Member], [Type] and [All] are
    subclasses of [Predicate] that build their test in [__init__]; the
    display [name], which no operation reads, is left out. *)
Inductive Spec : Type :=
| Predicate (pred : pyval -> py pyval)
| Member (values : list pyval)
| Type_ (type : pytype)
| All (specs : list Spec)
| Chain (specs : list Spec)
| Alt (tagged_specs : list (pyval * Spec))
| Keys (required optional : list pyval) (strict : bool)
| Key (key : pyval) (spec : Spec) (default : pyval).

(** [class SpecError]: the rejected value and the rejecting node.  The
    constructor takes any object as [spec]. *)
Record SpecError (S : Type) : Type := mkSpecError { value : pyval; spec : S }.
Arguments mkSpecError {S} value spec.
Arguments value {S} _.
Arguments spec {S} _.

(** What [conform] returns. *)
Definition result : Type := validated pyval (SpecError Spec).

(** The methods of each class.  [self] is the node the method runs on; the
    methods of child nodes are reached through [conform_] / [validate_],
    which [conform] and [validate] below bind to themselves. *)

Module Predicate.
Definition conform (self : Spec) (pred : pyval -> py pyval) (value : pyval)
  : py result :=
  t <- pred value ;;
  if truthy t then Ret (Valid value)
  else Ret (Invalid (mkSpecError value self)).

Definition validate (pred : pyval -> py pyval) (value : pyval) : py bool :=
  t <- pred value ;; Ret (truthy t).
End Predicate.

Module Member.
(** [ft.partial(op.contains, values)] *)
Definition pred (values : list pyval) : pyval -> py pyval :=
  fun x => b <- frozenset_contains values x ;; Ret (VBool b).
End Member.

Module Type_.
(** [lambda x: isinstance(x, type)] *)
Definition pred (type : pytype) : pyval -> py pyval :=
  fun x => Ret (VBool (isinstance x type)).
End Type_.

Module All.
(** [lambda x: all(spec.validate(x) for spec in specs)] *)
Definition pred (validate_ : Spec -> pyval -> py bool) (specs : list Spec)
  : pyval -> py pyval :=
  fun x => b <- py_all (List.map (fun spec => validate_ spec x) specs) ;;
           Ret (VBool b).
End All.

Module Alt.
(** The [for] loop with its [else] clause. *)
Definition conform (conform_ : Spec -> pyval -> py result) (self : Spec)
    (tagged_specs : list (pyval * Spec)) (value : pyval) : py result :=
  (fix loop (l : list (pyval * Spec)) : py result :=
     match l with
     | [] => Ret (Invalid (mkSpecError value self))
     | (tag, spec) :: l' =>
         r <- conform_ spec value ;;
         res <- Validated.map (fun x => Ret (VTuple [tag; x])) r ;;
         if Validated.is_valid res then Ret res else loop l'
     end) tagged_specs.

Definition validate (validate_ : Spec -> pyval -> py bool)
    (tagged_specs : list (pyval * Spec)) (value : pyval) : py bool :=
  py_any (List.map (fun '(_, spec) => validate_ spec value) tagged_specs).
End Alt.

Module Chain.
(** [ft.reduce(lambda acc, spec: acc.then(spec.conform), specs, res)] *)
Definition conform (conform_ : Spec -> pyval -> py result)
    (specs : list Spec) (value : pyval) : py result :=
  let res := Valid value in
  fold_left
    (fun acc spec => a <- acc ;; Validated.then_ (conform_ spec) a)
    specs (Ret res).

Definition validate (conform_ : Spec -> pyval -> py result)
    (specs : list Spec) (value : pyval) : py bool :=
  r <- conform conform_ specs value ;; Ret (Validated.is_valid r).
End Chain.

Module Keys.
Definition validate (required optional : list pyval) (strict : bool)
    (value : pyval) : py bool :=
  keys <- keys value ;;
  Ret (set_le required keys &&
       (negb strict || set_le keys (required ++ optional))).

Definition conform (self : Spec) (required optional : list pyval)
    (strict : bool) (value : pyval) : py result :=
  b <- validate required optional strict value ;;
  if b then Ret (Valid value)
  else Ret (Invalid (mkSpecError value self)).
End Keys.

Module Key.
(** [try: k = value[self.key]] with its [except KeyError] and [else]. *)
Definition conform (conform_ : Spec -> pyval -> py result)
    (key : pyval) (spec : Spec) (default : pyval) (value : pyval)
  : py result :=
  match getitem value key with
  | Raise KeyError => Ret (Valid (VTuple [key; default]))
  | Raise e => Raise e
  | Ret k => r <- conform_ spec k ;;
             Validated.map (fun x => Ret (VTuple [key; x])) r
  end.

Definition validate (validate_ : Spec -> pyval -> py bool)
    (key : pyval) (spec : Spec) (value : pyval) : py bool :=
  b <- contains value key ;;
  if negb b then Ret true
  else k <- getitem value key ;; validate_ spec k.
End Key.

(** Method dispatch on the class of [self]. *)
Fixpoint conform (self : Spec) (value : pyval) {struct self} : py result :=
  match self with
  | Predicate pred => Predicate.conform self pred value
  | Member values => Predicate.conform self (Member.pred values) value
  | Type_ type => Predicate.conform self (Type_.pred type) value
  | All specs => Predicate.conform self (All.pred validate specs) value
  | Chain specs => Chain.conform conform specs value
  | Alt tagged_specs => Alt.conform conform self tagged_specs value
  | Keys required optional strict =>
      Keys.conform self required optional strict value
  | Key key spec default => Key.conform conform key spec default value
  end
with validate (self : Spec) (value : pyval) {struct self} : py bool :=
  match self with
  | Predicate pred => Predicate.validate pred value
  | Member values => Predicate.validate (Member.pred values) value
  | Type_ type => Predicate.validate (Type_.pred type) value
  | All specs => Predicate.validate (All.pred validate specs) value
  | Chain specs => Chain.validate conform specs value
  | Alt tagged_specs => Alt.validate validate tagged_specs value
  | Keys required optional strict =>
      Keys.validate required optional strict value
  | Key key spec _ => Key.validate validate key spec value
  end.

(** Induction over a node and, through the lists, all its children. *)
Section SpecInduction.
Variable P : Spec -> Prop.
Hypothesis HPredicate : forall pred, P (Predicate pred).
Hypothesis HMember : forall values, P (Member values).
Hypothesis HType : forall type, P (Type_ type).
Hypothesis HAll : forall specs, Forall P specs -> P (All specs).
Hypothesis HChain : forall specs, Forall P specs -> P (Chain specs).
Hypothesis HAlt :
  forall ts, Forall (fun tc => P (snd tc)) ts -> P (Alt ts).
Hypothesis HKeys : forall r o s, P (Keys r o s).
Hypothesis HKey : forall key c default, P c -> P (Key key c default).

Fixpoint Spec_nested_ind (s : Spec) : P s :=
  match s with
  | Predicate pred => HPredicate pred
  | Member values => HMember values
  | Type_ type => HType type
  | All specs =>
      HAll specs
        ((fix go (l : list Spec) : Forall P l :=
            match l with
            | [] => Forall_nil P
            | c :: l' => Forall_cons c (Spec_nested_ind c) (go l')
            end) specs)
  | Chain specs =>
      HChain specs
        ((fix go (l : list Spec) : Forall P l :=
            match l with
            | [] => Forall_nil P
            | c :: l' => Forall_cons c (Spec_nested_ind c) (go l')
            end) specs)
  | Alt ts =>
      HAlt ts
        ((fix go (l : list (pyval * Spec))
            : Forall (fun tc => P (snd tc)) l :=
            match l with
            | [] => Forall_nil _
            | tc :: l' =>
                Forall_cons tc (Spec_nested_ind (snd tc)) (go l')
            end) ts)
  | Keys r o s => HKeys r o s
  | Key key c default => HKey key c default (Spec_nested_ind c)
  end.
End SpecInduction.

(* ===================================================================== *)
(** ** Reference notions used in the statements *)
(* ===================================================================== *)

(** [compose(g, f)]: call [f], then [g] on what it returned. *)
Definition py_compose {A B C : Type} (g : B -> py C) (f : A -> py B)
  : A -> py C :=
  fun x => y <- f x ;; g y.

(** A function that never raises, seen as a Python callable. *)
Definition pure_fn {A B : Type} (f : A -> B) : A -> py B :=
  fun x => Ret (f x).

(** The error payloads of the [Invalid] elements, in order. *)
Fixpoint error_payloads {A E : Type} (l : list (validated A E)) : list E :=
  match l with
  | [] => []
  | Valid _ :: l' => error_payloads l'
  | Invalid e :: l' => e :: error_payloads l'
  end.

(** The payloads of the [Valid] elements, in order. *)
Fixpoint valid_payloads {A E : Type} (l : list (validated A E)) : list A :=
  match l with
  | [] => []
  | Valid x :: l' => x :: valid_payloads l'
  | Invalid _ :: l' => valid_payloads l'
  end.

(** [k] is one of the keys of the dict with items [d]. *)
Definition key_present (k : pyval) (d : list (pyval * pyval)) : Prop :=
  exists k' x, In (k', x) d /\ py_eq k' k = true.

(** [k] is a member of the key set [s]. *)
Definition key_listed (k : pyval) (s : list pyval) : Prop :=
  exists k', In k' s /\ py_eq k' k = true.

(** [validate] and [conform(...).is_valid()] are the same call: they return
    the same boolean or raise the same exception. *)
Definition agree (s : Spec) (v : pyval) : Prop :=
  validate s v = (r <- conform s v ;; Ret (Validated.is_valid r)).

(** The values a node's methods are written for: [Key] subscripts its
    argument by a dict key. *)
Definition accepted (s : Spec) (v : pyval) : Prop :=
  match s with
  | Key _ _ _ => exists d, v = VDict d
  | _ => True
  end.

(** The children of a combinator agree on the values it hands them. *)
Definition children_agree (s : Spec) (v : pyval) : Prop :=
  match s with
  | Alt tagged_specs => forall tag c, In (tag, c) tagged_specs -> agree c v
  | Key key c _ => forall x, getitem v key = Ret x -> agree c x
  | _ => True
  end.

(** [value] has a keys view. *)
Definition is_mapping (v : pyval) : bool :=
  match v with
  | VDict _ => true
  | _ => false
  end.

(** [fits s v]: [v] is an input the node [s] is written for, at every node
    the value reaches: each predicate returns on it, a [Member] probe is
    hashable, [Keys] and [Key] receive a mapping, and the key of a [Key]
    is hashable. *)
Fixpoint fits (s : Spec) (v : pyval) {struct s} : Prop :=
  match s with
  | Predicate pred => returns (pred v)
  | Member _ => hashable v = true
  | Type_ _ => True
  | All specs =>
      (fix all (l : list Spec) : Prop :=
         match l with
         | [] => True
         | c :: l' => fits c v /\ all l'
         end) specs
  | Chain specs =>
      (fix go (l : list Spec) (v : pyval) : Prop :=
         match l with
         | [] => True
         | c :: l' =>
             fits c v /\ (forall x, conform c v = Ret (Valid x) -> go l' x)
         end) specs v
  | Alt tagged_specs =>
      (fix all (l : list (pyval * Spec)) : Prop :=
         match l with
         | [] => True
         | (_, c) :: l' => fits c v /\ all l'
         end) tagged_specs
  | Keys _ _ _ => is_mapping v = true
  | Key key c _ =>
      is_mapping v = true /\ hashable key = true
      /\ (forall x, getitem v key = Ret x -> fits c x)
  end.

(** Test fixtures: the predicates named in the examples. *)
Module Fixtures.
(** [lambda v: v > 0] *)
Definition is_positive (v : pyval) : py pyval :=
  match v with
  | VInt z => Ret (VBool (0 <? z)%Z)
  | VBool b => Ret (VBool b)
  | _ => Raise TypeError
  end.

(** [lambda v: v % 2 == 0] *)
Definition is_even (v : pyval) : py pyval :=
  match v with
  | VInt z => Ret (VBool (z mod 2 =? 0)%Z)
  | VBool b => Ret (VBool (negb b))
  | _ => Raise TypeError
  end.

(** [lambda v: isinstance(v, int)] *)
Definition is_int (v : pyval) : py pyval :=
  Ret (VBool (isinstance v TInt)).

(** [lambda v: v == c] *)
Definition equals (c : pyval) (v : pyval) : py pyval :=
  Ret (VBool (py_eq v c)).

Definition alt_spec : Spec :=
  Alt [(VStr "a", Predicate (equals (VStr "a")));
       (VStr "b", Predicate (equals (VStr "b")))].

Definition keys_spec : Spec := Keys [VStr "x"] [VStr "y"] true.

Definition key_spec : Spec := Key (VStr "x") (Predicate is_int) (VInt 0).
End Fixtures.

(* ===================================================================== *)
(** ** Printing: the [__repr__] and [__str__] methods *)
(* ===================================================================== *)

(** [self.specs]: [All.__init__] and [Chain.__init__] set the attribute;
    no other class does. *)
Definition attr_specs (self : Spec) : py (list Spec) :=
  match self with
  | All specs | Chain specs => Ret specs
  | _ => Raise AttributeError
  end.

(** [type.__name__] *)
Definition type_name (t : pytype) : string :=
  match t with
  | TObject => "object"
  | TNoneType => "NoneType"
  | TBool => "bool"
  | TInt => "int"
  | TStr => "str"
  | TTuple => "tuple"
  | TList => "list"
  | TDict => "dict"
  end.

(** [map(f, l)] consumed to the end: the calls are made in order and the
    first one that raises ends the scan. *)
Fixpoint py_map {A B : Type} (f : A -> py B) (l : list A) : py (list B) :=
  match l with
  | [] => Ret []
  | x :: l' => y <- f x ;; ys <- py_map f l' ;; Ret (y :: ys)
  end.

Section Printing.
(** The built-ins the methods call: [str(v)] and [repr(v)] of a data
    object, [str(s)] of a frozenset, and [f.__name__] of a callable (which
    raises for a callable without the attribute). *)
Variable str_value : pyval -> string.
Variable repr_value : pyval -> string.
Variable str_frozenset : list pyval -> string.
Variable fn_name : (pyval -> py pyval) -> py string.

Definition Predicate_repr (pred : pyval -> py pyval) : py string :=
  n <- fn_name pred ;; Ret ("Predicate" ++ "(" ++ n ++ ")")%string.

Definition Member_repr (values : list pyval) : py string :=
  Ret ("Member(" ++ String.concat "," (List.map str_value values) ++ ")")%string.

Definition Type_repr (type : pytype) : py string :=
  Ret ("Type(" ++ type_name type ++ ")")%string.

(** [Alt.__repr__] iterates [self.specs].  Were the attribute there, its
    elements would be nodes, and unpacking a node as [tag, spec] raises
    [TypeError]. *)
Definition Alt_repr (repr_ : Spec -> py string) (self : Spec) : py string :=
  specs <- attr_specs self ;;
  parts <- py_map (fun _ : Spec => @Raise string TypeError) specs ;;
  Ret ("Alt(" ++ String.concat ", " parts ++ ")")%string.

(** [Chain] and [All] read the [specs] their own [__init__] stored. *)
Definition Chain_repr (repr_ : Spec -> py string) (specs : list Spec)
  : py string :=
  parts <- py_map repr_ specs ;;
  Ret ("Chain(" ++ String.concat ", " parts ++ ")")%string.

Definition All_repr (repr_ : Spec -> py string) (specs : list Spec)
  : py string :=
  parts <- py_map repr_ specs ;;
  Ret ("All(" ++ String.concat ", " parts ++ ")")%string.

Definition Keys_repr (required optional : list pyval) (strict : bool)
  : py string :=
  Ret ("Keys" ++ "(required=" ++ str_frozenset required
       ++ ", optional=" ++ str_frozenset optional
       ++ ", strict=" ++ (if strict then "True" else "False") ++ ")")%string.

Definition Key_repr (repr_ : Spec -> py string) (key : pyval) (spec : Spec)
    (default : pyval) : py string :=
  s <- repr_ spec ;;
  Ret ("Key" ++ "(" ++ (str_value key ++ "=" ++ s)
       ++ ", default=" ++ str_value default ++ ")")%string.

(** [repr(self)], dispatched on the class. *)
Fixpoint repr (self : Spec) : py string :=
  match self with
  | Predicate pred => Predicate_repr pred
  | Member values => Member_repr values
  | Type_ type => Type_repr type
  | All specs => All_repr repr specs
  | Chain specs => Chain_repr repr specs
  | Alt _ => Alt_repr repr self
  | Keys required optional strict => Keys_repr required optional strict
  | Key key spec default => Key_repr repr key spec default
  end.

(** [SpecError.__str__] *)
Definition SpecError_str (e : SpecError Spec) : py string :=
  s <- repr (spec e) ;;
  Ret ("value " ++ repr_value (value e) ++ " failed Spec " ++ s)%string.

(** [SpecError.__repr__] *)
Definition SpecError_repr (e : SpecError Spec) : py string :=
  s <- repr (spec e) ;;
  Ret ("SpecError" ++ "(value=" ++ repr_value (value e)
       ++ ", spec=" ++ s ++ ")")%string.
End Printing.

(** An [Alt] node sits where printing reaches: the node itself, or below
    [Chain], [All] and [Key] nodes. *)
Fixpoint has_alt (s : Spec) : bool :=
  match s with
  | Alt _ => true
  | All specs | Chain specs =>
      (fix any (l : list Spec) : bool :=
         match l with
         | [] => false
         | c :: l' => has_alt c || any l'
         end) specs
  | Key _ c _ => has_alt c
  | _ => false
  end.

(** The nodes whose [conform] hands the input back as it is: the
    [Predicate] family and [Keys]. *)
Definition plain (s : Spec) : bool :=
  match s with
  | Predicate _ | Member _ | Type_ _ | All _ | Keys _ _ _ => true
  | Chain _ | Alt _ | Key _ _ _ => false
  end.

(* ===================================================================== *)
(** ** The result algebra: laws *)
(* ===================================================================== *)

Import Validated.

(** C1.  [Invalid(e1).ap(Invalid(e2))] does not combine the two payloads:
    it returns [Invalid(e2 + e2)], the right payload added to itself, and
    the left payload [e1] is lost; with list payloads [[1]] and [[2]] the
    result is [Invalid([2, 2])], not [Invalid([1, 2])].  The other half of
    the claim holds: [Invalid(e1).ap(Valid(y))] is [Invalid(e1)]. *)
Theorem ap_invalid_invalid_doubles_right :
  (forall (A B E : Type) (add : PyAdd E) (e1 e2 : E),
      ap (A := A) (B := B) (Invalid e1) (Invalid e2)
      = (s <- py_add e2 e2 ;; Ret (Invalid s)))
  /\ ap (A := Z) (B := Z) (Invalid [1%Z]) (Invalid [2%Z])
     = Ret (Invalid [2%Z; 2%Z])
  /\ ap (A := Z) (B := Z) (Invalid [1%Z]) (Invalid [2%Z])
     <> (s <- py_add [1%Z] [2%Z] ;; Ret (Invalid s))
  /\ (forall (A B E : Type) (add : PyAdd E) (e1 : E) (y : A),
        ap (A := A) (B := B) (Invalid e1) (Valid y) = Ret (Invalid e1)).
Proof.
  repeat split; try reflexivity.
  cbv. intros H. discriminate H.
Qed.

(** C10.  [Valid(f).ap(Invalid(e))] returns [Invalid(e)]: with a valid
    left operand the failure of the right operand is the result. *)
Theorem ap_valid_invalid :
  forall (A B E : Type) (add : PyAdd E) (f : A -> py B) (e : E),
    ap (Valid f) (Invalid e) = Ret (Invalid e).
Proof. intros. reflexivity. Qed.

(** C9.  Functor laws of [map]: mapping [identity] over [Valid(x)] gives
    [Valid(x)] (and leaves any result as it is); [Invalid(e).map(f)] is
    [Invalid(e)] for every [f]; and mapping [f] then [g] is mapping
    [compose(g, f)], whether or not the functions raise. *)
Theorem map_functor_laws :
  forall (A B C E : Type),
    (forall x : A,
        map (pure_fn prelude.identity) (Valid x : validated A E)
        = Ret (Valid x))
    /\ (forall r : validated A E, map (pure_fn prelude.identity) r = Ret r)
    /\ (forall (e : E) (f : A -> py B), map f (Invalid e) = Ret (Invalid e))
    /\ (forall (f : A -> py B) (g : B -> py C) (r : validated A E),
          (r' <- map f r ;; map g r') = map (py_compose g f) r).
Proof.
  intros A B C E. repeat split.
  - intros [x | e]; reflexivity.
  - intros f g [x | e]; [| reflexivity].
    unfold map, py_compose, verify. destruct (f x); reflexivity.
Qed.

(** The two halves [sep_by] returns, read off element by element. *)
Lemma sep_by_invalid_payloads {A E : Type} (l : list (validated A E)) :
  List.map payload (snd (prelude.sep_by is_valid l))
  = List.map inr (error_payloads l).
Proof.
  induction l as [| [x | e] l IH]; simpl in *; [reflexivity | exact IH |].
  now rewrite IH.
Qed.

Lemma sep_by_valid_payloads {A E : Type} (l : list (validated A E)) :
  List.map payload (fst (prelude.sep_by is_valid l))
  = List.map inl (valid_payloads l).
Proof.
  induction l as [| [x | e] l IH]; simpl in *; [reflexivity | | exact IH].
  now rewrite IH.
Qed.

Lemma sep_by_invalid_count {A E : Type} (l : list (validated A E)) :
  (0 <? Z.of_nat (List.length (snd (prelude.sep_by is_valid l))))%Z
  = existsb is_invalid l.
Proof.
  induction l as [| [x | e] l IH]; simpl in *; [reflexivity | exact IH |].
  apply Z.ltb_lt. lia.
Qed.

Lemma existsb_is_invalid {A E : Type} (l : list (validated A E)) :
  existsb is_invalid l = true <-> exists e, In (Invalid e) l.
Proof.
  rewrite existsb_exists. split.
  - intros [[x | e] [Hin Hb]]; [discriminate Hb | now exists e].
  - intros [e Hin]. now exists (Invalid e).
Qed.

(** C3.  [collect] returns [Invalid] of the error payloads of all
    [Invalid] elements, in their original order, when the sequence has at
    least one [Invalid] element, and otherwise [Valid] of the payloads of
    all [Valid] elements, in their original order.  On
    [[Valid(1), Invalid(SpecError(2,None)), Valid(3),
    Invalid(SpecError(4,None))]] it returns
    [Invalid([SpecError(2,None), SpecError(4,None)])]. *)
Theorem collect_all_or_nothing :
  (forall (A E : Type) (l : list (validated A E)),
      collect l
      = if existsb is_invalid l
        then Invalid (List.map inr (error_payloads l))
        else Valid (List.map inl (valid_payloads l)))
  /\ (forall (A E : Type) (l : list (validated A E)),
        existsb is_invalid l = true <-> exists e, In (Invalid e) l)
  /\ collect [Valid (VInt 1);
              Invalid (mkSpecError (VInt 2) (@None Spec));
              Valid (VInt 3);
              Invalid (mkSpecError (VInt 4) (@None Spec))]
     = Invalid [inr (mkSpecError (VInt 2) None);
                inr (mkSpecError (VInt 4) None)].
Proof.
  split; [| split; [intros; apply existsb_is_invalid | reflexivity]].
  intros A E l. unfold collect.
  pose proof (sep_by_invalid_payloads l) as Hi.
  pose proof (sep_by_valid_payloads l) as Hv.
  pose proof (sep_by_invalid_count l) as Hc.
  destruct (prelude.sep_by is_valid l) as [vals invs]. simpl in *.
  now rewrite Hc, Hi, Hv.
Qed.

(* ===================================================================== *)
(** ** [Chain] *)
(* ===================================================================== *)

Section ChainFold.
Variable conform_ : Spec -> pyval -> py result.

Let step (acc : py result) (spec : Spec) : py result :=
  a <- acc ;; then_ (conform_ spec) a.

(** Once the accumulator is [Invalid], [then] never calls the remaining
    stages. *)
Lemma Chain_fold_invalid (specs : list Spec) (e : SpecError Spec) :
  fold_left step specs (Ret (Invalid e)) = Ret (Invalid e).
Proof. induction specs as [| s ss IH]; [reflexivity | exact IH]. Qed.

Lemma Chain_fold_raise (specs : list Spec) (x : exn) :
  fold_left step specs (Raise x) = Raise x.
Proof. induction specs as [| s ss IH]; [reflexivity | exact IH]. Qed.

Lemma Chain_conform_cons (s : Spec) (ss : list Spec) (v : pyval) :
  Chain.conform conform_ (s :: ss) v
  = match conform_ s v with
    | Ret (Valid x) => Chain.conform conform_ ss x
    | Ret (Invalid e) => Ret (Invalid e)
    | Raise x => Raise x
    end.
Proof.
  unfold Chain.conform. simpl.
  destruct (conform_ s v) as [[x | e] | x].
  - reflexivity.
  - apply Chain_fold_invalid.
  - apply Chain_fold_raise.
Qed.
(** A chain split in two: the second part runs on what the first part
    conformed, unless the first part already failed. *)
Lemma Chain_conform_app (pre post : list Spec) (v : pyval) :
  Chain.conform conform_ (pre ++ post) v
  = match Chain.conform conform_ pre v with
    | Ret (Valid x) => Chain.conform conform_ post x
    | Ret (Invalid e) => Ret (Invalid e)
    | Raise z => Raise z
    end.
Proof.
  unfold Chain.conform. rewrite fold_left_app.
  destruct (fold_left _ pre _) as [[x | e] | z].
  - reflexivity.
  - apply Chain_fold_invalid.
  - apply Chain_fold_raise.
Qed.
End ChainFold.

(** C2.  [Chain.conform(v)] starts from [Valid(v)] and threads the value
    left to right: the empty chain returns [Valid(v)]; otherwise the first
    stage conforms [v], its conformed output is the input of the rest of
    the chain, and the first [Invalid] a stage returns is the result of the
    chain, unchanged.  Seen from any stage [s]: when the stages before it
    conformed [v] to [x], then [s] is called on [x], and what follows only
    runs if [s] returns [Valid].  [Chain(Predicate(is_positive),
    Predicate(is_even)).conform(4)] is [Valid(4)] and [.conform(3)] is
    [Invalid(SpecError(3, Predicate(is_even)))]. *)
Theorem Chain_conform_threads :
  (forall v, conform (Chain []) v = Ret (Valid v))
  /\ (forall s ss v,
        conform (Chain (s :: ss)) v
        = match conform s v with
          | Ret (Valid x) => conform (Chain ss) x
          | Ret (Invalid e) => Ret (Invalid e)
          | Raise x => Raise x
          end)
  /\ (forall pre s post v x,
        conform (Chain pre) v = Ret (Valid x) ->
        conform (Chain (pre ++ s :: post)) v
        = match conform s x with
          | Ret (Valid y) => conform (Chain post) y
          | Ret (Invalid e) => Ret (Invalid e)
          | Raise z => Raise z
          end)
  /\ conform (Chain [Predicate Fixtures.is_positive;
                     Predicate Fixtures.is_even]) (VInt 4)
     = Ret (Valid (VInt 4))
  /\ conform (Chain [Predicate Fixtures.is_positive;
                     Predicate Fixtures.is_even]) (VInt 3)
     = Ret (Invalid (mkSpecError (VInt 3) (Predicate Fixtures.is_even))).
Proof.
  split; [reflexivity |].
  split; [intros s ss v; apply (Chain_conform_cons conform) |].
  split; [| split; reflexivity].
  intros pre s post v x Hpre.
  change (conform (Chain (pre ++ s :: post)) v)
    with (Chain.conform conform (pre ++ s :: post) v).
  rewrite Chain_conform_app.
  change (Chain.conform conform pre v) with (conform (Chain pre) v).
  rewrite Hpre. apply (Chain_conform_cons conform).
Qed.

(** The second stage of the example chain is called on [3], the value the
    first stage let through, and its [Invalid] is the result. *)
Lemma Chain_conform_threads_witness :
  conform (Chain ([Predicate Fixtures.is_positive]
                  ++ Predicate Fixtures.is_even :: [])) (VInt 3)
  = Ret (Invalid (mkSpecError (VInt 3) (Predicate Fixtures.is_even))).
Proof.
  exact (proj1 (proj2 (proj2 Chain_conform_threads))
           [Predicate Fixtures.is_positive] (Predicate Fixtures.is_even) []
           (VInt 3) (VInt 3) eq_refl).
Defined.

(* ===================================================================== *)
(** ** [Alt] *)
(* ===================================================================== *)

Lemma Alt_conform_none (self : Spec) (ts : list (pyval * Spec)) (v : pyval) :
  (forall tag c, In (tag, c) ts -> exists e, conform c v = Ret (Invalid e)) ->
  Alt.conform conform self ts v = Ret (Invalid (mkSpecError v self)).
Proof.
  induction ts as [| [tag c] ts IH]; intros Hall; [reflexivity |].
  simpl. destruct (Hall tag c (or_introl eq_refl)) as [e He].
  rewrite He. simpl. apply IH.
  intros t' c' Hin. apply (Hall t' c'). now right.
Qed.

Lemma Alt_conform_first (self : Spec) (pre post : list (pyval * Spec))
    (tag : pyval) (s : Spec) (v x : pyval) :
  (forall t c, In (t, c) pre -> exists e, conform c v = Ret (Invalid e)) ->
  conform s v = Ret (Valid x) ->
  Alt.conform conform self (pre ++ (tag, s) :: post) v
  = Ret (Valid (VTuple [tag; x])).
Proof.
  intros Hpre Hs.
  induction pre as [| [t c] pre IH]; simpl.
  - rewrite Hs. reflexivity.
  - destruct (Hpre t c (or_introl eq_refl)) as [e He].
    rewrite He. simpl. apply IH.
    intros t' c' Hin. apply (Hpre t' c'). now right.
Qed.

(** C4.  [Alt.conform(v)] returns, for the first branch in order whose
    spec conforms [v] to [Valid(x)], the result [Valid((tag, x))]; when
    every branch returns [Invalid] it returns the single
    [Invalid(SpecError(v, self))] naming the [Alt] node, and the branch
    errors are dropped.  With branches ["a"] and ["b"] testing equality,
    [.conform("b")] is [Valid(("b", "b"))] and [.conform("c")] is
    [Invalid(SpecError("c", alt_spec))]. *)
Theorem Alt_conform_first_match :
  (forall (ts : list (pyval * Spec)) (v : pyval),
      (forall pre tag s post x,
          ts = pre ++ (tag, s) :: post ->
          (forall t c, In (t, c) pre ->
                       exists e, conform c v = Ret (Invalid e)) ->
          conform s v = Ret (Valid x) ->
          conform (Alt ts) v = Ret (Valid (VTuple [tag; x])))
      /\ ((forall t c, In (t, c) ts ->
                       exists e, conform c v = Ret (Invalid e)) ->
          conform (Alt ts) v = Ret (Invalid (mkSpecError v (Alt ts)))))
  /\ conform Fixtures.alt_spec (VStr "b")
     = Ret (Valid (VTuple [VStr "b"; VStr "b"]))
  /\ conform Fixtures.alt_spec (VStr "c")
     = Ret (Invalid (mkSpecError (VStr "c") Fixtures.alt_spec)).
Proof.
  split; [| split; reflexivity].
  intros ts v. split.
  - intros pre tag s post x -> Hpre Hs. simpl.
    now apply Alt_conform_first.
  - intros Hall. simpl. now apply Alt_conform_none.
Qed.

(** Both halves of the general statement at [alt_spec]: ["b"] is rejected
    by the first branch and accepted by the second; ["c"] is rejected by
    both. *)
Lemma Alt_conform_first_match_witness :
  conform (Alt [(VStr "a", Predicate (Fixtures.equals (VStr "a")));
                (VStr "b", Predicate (Fixtures.equals (VStr "b")))])
          (VStr "b")
  = Ret (Valid (VTuple [VStr "b"; VStr "b"]))
  /\ conform Fixtures.alt_spec (VStr "c")
     = Ret (Invalid (mkSpecError (VStr "c") Fixtures.alt_spec)).
Proof.
  split.
  - refine (proj1 (proj1 Alt_conform_first_match _ (VStr "b"))
              [(VStr "a", Predicate (Fixtures.equals (VStr "a")))]
              (VStr "b") (Predicate (Fixtures.equals (VStr "b"))) []
              (VStr "b") eq_refl _ eq_refl).
    intros t c [Heq | []]. inversion Heq; subst.
    eexists. reflexivity.
  - refine (proj2 (proj1 Alt_conform_first_match _ (VStr "c")) _).
    intros t c [Heq | [Heq | []]]; inversion Heq; subst;
      eexists; reflexivity.
Defined.

(* ===================================================================== *)
(** ** [Key] *)
(* ===================================================================== *)

(** On a dict, [key in d] and [d[key]] look the key up the same way. *)
Lemma dict_contains_getitem (d : list (pyval * pyval)) (key : pyval) :
  contains (VDict d) key = Ret true <-> exists x, getitem (VDict d) key = Ret x.
Proof.
  simpl. destruct (hashable key); [| split; [| intros [x Hx]]; discriminate].
  destruct (dict_lookup d key) as [x |].
  - split; [intros _; now exists x | reflexivity].
  - split; [| intros [x Hx]]; discriminate.
Qed.

Lemma dict_absent_getitem (d : list (pyval * pyval)) (key : pyval) :
  contains (VDict d) key = Ret false -> getitem (VDict d) key = Raise KeyError.
Proof.
  simpl. destruct (hashable key); [| discriminate].
  destruct (dict_lookup d key); [discriminate | reflexivity].
Qed.

(** [map] with a tagging function keeps the class of the result. *)
Lemma map_tag_cases (tag : pyval) (c : py result) :
  (r <- c ;; map (fun x => Ret (VTuple [tag; x])) r)
  = match c with
    | Ret (Valid y) => Ret (Valid (VTuple [tag; y]))
    | Ret (Invalid e) => Ret (Invalid e)
    | Raise z => Raise z
    end.
Proof. destruct c as [[y | e] | z]; reflexivity. Qed.

(** C5.  On a mapping [m]: when [key] is absent, [Key.conform(m)] is
    [Valid((key, default))]; when [m[key]] is [x], it is [spec.conform(x)]
    with a [Valid(y)] wrapped as [Valid((key, y))] and an [Invalid]
    returned as it is, so the error names the field's spec.  A key is
    present exactly when [m[key]] has a value.
    [Key("x", Predicate(is_int), default=0).conform({})] is
    [Valid(("x", 0))] and [.conform({"x": "s"})] is
    [Invalid(SpecError("s", Predicate(is_int)))]. *)
Theorem Key_conform_cases :
  (forall (key : pyval) (s : Spec) (default : pyval)
          (d : list (pyval * pyval)),
      (contains (VDict d) key = Ret false ->
       conform (Key key s default) (VDict d)
       = Ret (Valid (VTuple [key; default])))
      /\ (forall x,
            getitem (VDict d) key = Ret x ->
            conform (Key key s default) (VDict d)
            = match conform s x with
              | Ret (Valid y) => Ret (Valid (VTuple [key; y]))
              | Ret (Invalid e) => Ret (Invalid e)
              | Raise z => Raise z
              end)
      /\ (contains (VDict d) key = Ret true
          <-> exists x, getitem (VDict d) key = Ret x))
  /\ conform Fixtures.key_spec (VDict [])
     = Ret (Valid (VTuple [VStr "x"; VInt 0]))
  /\ conform Fixtures.key_spec (VDict [(VStr "x", VStr "s")])
     = Ret (Invalid (mkSpecError (VStr "s") (Predicate Fixtures.is_int))).
Proof.
  split; [| split; reflexivity].
  intros key s default d. split; [| split].
  - intros Habs. apply dict_absent_getitem in Habs.
    change (conform (Key key s default) (VDict d))
      with (Key.conform conform key s default (VDict d)).
    unfold Key.conform. now rewrite Habs.
  - intros x Hx.
    change (conform (Key key s default) (VDict d))
      with (Key.conform conform key s default (VDict d)).
    unfold Key.conform. rewrite Hx. apply map_tag_cases.
  - apply dict_contains_getitem.
Qed.

(** The absent and the present case at concrete dicts. *)
Lemma Key_conform_cases_witness :
  conform (Key (VStr "x") (Predicate Fixtures.is_int) (VInt 0)) (VDict [])
  = Ret (Valid (VTuple [VStr "x"; VInt 0]))
  /\ conform (Key (VStr "x") (Predicate Fixtures.is_int) (VInt 0))
             (VDict [(VStr "x", VInt 7)])
     = Ret (Valid (VTuple [VStr "x"; VInt 7])).
Proof.
  split.
  - exact (proj1 (proj1 Key_conform_cases (VStr "x")
                    (Predicate Fixtures.is_int) (VInt 0) []) eq_refl).
  - exact (proj1 (proj2 (proj1 Key_conform_cases (VStr "x")
                           (Predicate Fixtures.is_int) (VInt 0)
                           [(VStr "x", VInt 7)])) (VInt 7) eq_refl).
Defined.

(* ===================================================================== *)
(** ** [Keys] *)
(* ===================================================================== *)

Lemma key_in_listed (k : pyval) (s : list pyval) :
  key_in k s = true <-> key_listed k s.
Proof. unfold key_in, key_listed. apply existsb_exists. Qed.

Lemma key_listed_union (k : pyval) (a b : list pyval) :
  key_listed k (a ++ b) <-> key_listed k a \/ key_listed k b.
Proof.
  unfold key_listed. split.
  - intros [k' [Hin Heq]]. apply in_app_or in Hin.
    destruct Hin; [left | right]; now exists k'.
  - intros [[k' [Hin Heq]] | [k' [Hin Heq]]]; exists k';
      (split; [apply in_or_app; auto | exact Heq]).
Qed.

Lemma key_listed_present (k : pyval) (d : list (pyval * pyval)) :
  key_listed k (List.map fst d) <-> key_present k d.
Proof.
  unfold key_listed, key_present. split.
  - intros [k' [Hin Heq]]. apply in_map_iff in Hin.
    destruct Hin as [[k0 x] [Hfst Hin]]. simpl in Hfst. subst k0.
    now exists k', x.
  - intros [k' [x [Hin Heq]]]. exists k'. split; [| exact Heq].
    apply in_map_iff. now exists (k', x).
Qed.

Lemma set_le_spec (a b : list pyval) :
  set_le a b = true <-> forall k, In k a -> key_listed k b.
Proof.
  unfold set_le. rewrite forallb_forall.
  split; intros H k Hin; apply key_in_listed; now apply H.
Qed.

Lemma Keys_validate_dict (required optional : list pyval) (strict : bool)
    (d : list (pyval * pyval)) :
  validate (Keys required optional strict) (VDict d)
  = Ret (set_le required (List.map fst d) &&
         (negb strict || set_le (List.map fst d) (required ++ optional))).
Proof. reflexivity. Qed.

(** C6.  On a mapping [m], [Keys.validate(m)] returns a boolean, which is
    true exactly when every required key is a key of [m] and, if [strict]
    is true, every key of [m] is in [required] or in [optional];
    [Keys.conform(m)] is [Valid(m)] when [validate(m)] is true and
    [Invalid(SpecError(m, self))] when it is false.  With
    [required={"x"}], [optional={"y"}], [strict=True]: [{"x":1}] validates,
    [{"x":1,"z":2}] and [{"y":1}] do not. *)
Theorem Keys_validate_conform :
  (forall (required optional : list pyval) (strict : bool)
          (d : list (pyval * pyval)),
      (validate (Keys required optional strict) (VDict d) = Ret true
       \/ validate (Keys required optional strict) (VDict d) = Ret false)
      /\ (validate (Keys required optional strict) (VDict d) = Ret true
          <-> (forall k, In k required -> key_present k d)
              /\ (strict = true ->
                  forall k x, In (k, x) d ->
                              key_listed k required \/ key_listed k optional))
      /\ (validate (Keys required optional strict) (VDict d) = Ret true ->
          conform (Keys required optional strict) (VDict d)
          = Ret (Valid (VDict d)))
      /\ (validate (Keys required optional strict) (VDict d) = Ret false ->
          conform (Keys required optional strict) (VDict d)
          = Ret (Invalid (mkSpecError (VDict d)
                            (Keys required optional strict)))))
  /\ validate Fixtures.keys_spec (VDict [(VStr "x", VInt 1)]) = Ret true
  /\ validate Fixtures.keys_spec
       (VDict [(VStr "x", VInt 1); (VStr "z", VInt 2)]) = Ret false
  /\ validate Fixtures.keys_spec (VDict [(VStr "y", VInt 1)]) = Ret false.
Proof.
  split; [| repeat split].
  intros required optional strict d.
  rewrite Keys_validate_dict.
  change (conform (Keys required optional strict) (VDict d))
    with (Keys.conform (Keys required optional strict)
            required optional strict (VDict d)).
  unfold Keys.conform.
  change (Keys.validate required optional strict (VDict d))
    with (Ret (A := bool)
            (set_le required (List.map fst d) &&
             (negb strict || set_le (List.map fst d) (required ++ optional)))).
  set (b := set_le required (List.map fst d) &&
            (negb strict || set_le (List.map fst d) (required ++ optional))).
  assert (Hb : b = true <->
               (forall k, In k required -> key_present k d)
               /\ (strict = true ->
                   forall k x, In (k, x) d ->
                               key_listed k required \/ key_listed k optional)).
  { unfold b. rewrite andb_true_iff, orb_true_iff, negb_true_iff.
    rewrite !set_le_spec. split.
    - intros [Hreq Hstrict]. split.
      + intros k Hin. apply key_listed_present. now apply Hreq.
      + intros Hs k x Hin.
        destruct Hstrict as [Hns | Hle]; [congruence |].
        apply key_listed_union. apply Hle.
        apply in_map_iff. now exists (k, x).
    - intros [Hreq Hstrict]. split.
      + intros k Hin. apply key_listed_present. now apply Hreq.
      + destruct strict; [right | now left].
        intros k Hin. apply in_map_iff in Hin.
        destruct Hin as [[k0 x] [Hfst Hin]]. simpl in Hfst. subst k0.
        apply key_listed_union. now apply (Hstrict eq_refl k x). }
  split; [| split; [| split]].
  - destruct b; [now left | now right].
  - rewrite <- Hb. split; [intros Heq; now injection Heq | intros ->; reflexivity].
  - intros Heq. injection Heq as ->. reflexivity.
  - intros Heq. injection Heq as ->. reflexivity.
Qed.

(** The conform half of the statement at the three example dicts. *)
Lemma Keys_validate_conform_witness :
  conform Fixtures.keys_spec (VDict [(VStr "x", VInt 1)])
  = Ret (Valid (VDict [(VStr "x", VInt 1)]))
  /\ conform Fixtures.keys_spec (VDict [(VStr "y", VInt 1)])
     = Ret (Invalid (mkSpecError (VDict [(VStr "y", VInt 1)])
                       Fixtures.keys_spec)).
Proof.
  split.
  - exact (proj1 (proj2 (proj2 (proj1 Keys_validate_conform
             [VStr "x"] [VStr "y"] true [(VStr "x", VInt 1)]))) eq_refl).
  - exact (proj2 (proj2 (proj2 (proj1 Keys_validate_conform
             [VStr "x"] [VStr "y"] true [(VStr "y", VInt 1)]))) eq_refl).
Defined.

(* ===================================================================== *)
(** ** [validate] against [conform] *)
(* ===================================================================== *)

Lemma Predicate_agree (self : Spec) (pred : pyval -> py pyval) (v : pyval) :
  Predicate.validate pred v
  = (r <- Predicate.conform self pred v ;; Ret (is_valid r)).
Proof.
  unfold Predicate.validate, Predicate.conform.
  destruct (pred v) as [t | x]; [| reflexivity].
  simpl. destruct (truthy t); reflexivity.
Qed.

Lemma Keys_agree (self : Spec) (required optional : list pyval)
    (strict : bool) (v : pyval) :
  Keys.validate required optional strict v
  = (r <- Keys.conform self required optional strict v ;; Ret (is_valid r)).
Proof.
  unfold Keys.conform.
  destruct (Keys.validate required optional strict v) as [[|] | x];
    reflexivity.
Qed.

Lemma Alt_agree (self : Spec) (ts : list (pyval * Spec)) (v : pyval) :
  (forall tag c, In (tag, c) ts -> agree c v) ->
  Alt.validate validate ts v
  = (r <- Alt.conform conform self ts v ;; Ret (is_valid r)).
Proof.
  unfold Alt.validate.
  induction ts as [| [tag c] ts IH]; intros Hch; [reflexivity |].
  simpl. rewrite (Hch tag c (or_introl eq_refl)).
  destruct (conform c v) as [[x | e] | z]; simpl; [reflexivity | | reflexivity].
  apply IH. intros t' c' Hin. apply (Hch t' c'). now right.
Qed.

Lemma Key_agree (key : pyval) (c : Spec) (default : pyval)
    (d : list (pyval * pyval)) :
  (forall x, getitem (VDict d) key = Ret x -> agree c x) ->
  Key.validate validate key c (VDict d)
  = (r <- Key.conform conform key c default (VDict d) ;; Ret (is_valid r)).
Proof.
  intros Hch. unfold Key.validate, Key.conform.
  revert Hch. simpl. destruct (hashable key); [| reflexivity].
  destruct (dict_lookup d key) as [x |]; intros Hch; [| reflexivity].
  simpl. rewrite (Hch x eq_refl).
  destruct (conform c x) as [[y | e] | z]; reflexivity.
Qed.

Lemma agree_iff (s : Spec) (v : pyval) :
  agree s v ->
  (validate s v = Ret true
   <-> exists r, conform s v = Ret r /\ is_valid r = true).
Proof.
  unfold agree. intros ->.
  destruct (conform s v) as [r | x]; simpl.
  - split.
    + intros Heq. exists r. split; [reflexivity | now injection Heq].
    + intros [r' [Heq Hv]]. injection Heq as <-. now rewrite Hv.
  - split; [discriminate | intros [r' [Heq _]]; discriminate].
Qed.

(** A node whose two methods return and satisfy the equivalence agrees. *)
Lemma agree_of_iff (s : Spec) (v : pyval) :
  returns (validate s v) ->
  returns (conform s v) ->
  (validate s v = Ret true
   <-> exists r, conform s v = Ret r /\ is_valid r = true) ->
  agree s v.
Proof.
  unfold agree. intros [b Hb] [r Hr] Hiff.
  rewrite Hr in *. rewrite Hb in *. simpl. f_equal.
  destruct b.
  - destruct (proj1 Hiff eq_refl) as [r' [Heq Hv]].
    injection Heq as <-. now rewrite Hv.
  - destruct (is_valid r) eqn:Hv; [| reflexivity].
    assert (Habs : Ret false = Ret true)
      by (apply Hiff; now exists r).
    discriminate Habs.
Qed.

(** C7.  For every class of node and every value its methods accept (a
    mapping for [Key]), provided the children of an [Alt] or [Key] node
    agree on the values handed to them, [validate(v)] and
    [conform(v).is_valid()] are the same call, so [validate(v)] is true if
    and only if [conform(v)] returns a valid result.  A child agrees as
    soon as its methods return and satisfy the equivalence
    ([agree_of_iff]). *)
Theorem validate_iff_conform_is_valid :
  forall (s : Spec) (v : pyval),
    accepted s v ->
    children_agree s v ->
    agree s v
    /\ (validate s v = Ret true
        <-> exists r, conform s v = Ret r /\ is_valid r = true).
Proof.
  intros s v Hacc Hch.
  assert (Hag : agree s v).
  { unfold agree.
    destruct s as [pred | values | type | specs | specs | ts
                  | required optional strict | key c default].
    - apply Predicate_agree.
    - apply Predicate_agree.
    - apply Predicate_agree.
    - apply (Predicate_agree (All specs) (All.pred validate specs)).
    - reflexivity.
    - apply (Alt_agree (Alt ts)). exact Hch.
    - apply Keys_agree.
    - destruct Hacc as [d ->]. apply (Key_agree key c default d). exact Hch. }
  split; [exact Hag | now apply agree_iff].
Qed.

(** An [Alt] over two predicates and a [Key] on a dict that holds its
    key. *)
Lemma validate_iff_conform_is_valid_witness :
  agree Fixtures.alt_spec (VStr "b")
  /\ agree Fixtures.key_spec (VDict [(VStr "x", VStr "s")]).
Proof.
  split.
  - refine (proj1 (validate_iff_conform_is_valid
                     Fixtures.alt_spec (VStr "b") I _)).
    intros tag c [Heq | [Heq | []]]; inversion Heq; subst; reflexivity.
  - refine (proj1 (validate_iff_conform_is_valid Fixtures.key_spec
                     (VDict [(VStr "x", VStr "s")])
                     (ex_intro _ [(VStr "x", VStr "s")] eq_refl) _)).
    intros x Hx. injection Hx as <-. reflexivity.
Defined.

(* ===================================================================== *)
(** ** Which calls return *)
(* ===================================================================== *)

Lemma returns_Ret {A : Type} (a : A) : returns (Ret a).
Proof. now exists a. Qed.

Lemma returns_Raise {A : Type} (x : exn) : ~ returns (@Raise A x).
Proof. intros [a Ha]. discriminate Ha. Qed.

#[local] Hint Resolve returns_Ret : core.

Lemma Predicate_returns (self : Spec) (pred : pyval -> py pyval) (v : pyval) :
  returns (pred v) ->
  returns (Predicate.conform self pred v)
  /\ returns (Predicate.validate pred v).
Proof.
  intros [t Ht]. unfold Predicate.conform, Predicate.validate.
  rewrite Ht. simpl. destruct (truthy t); auto.
Qed.

Lemma py_all_returns (specs : list Spec) (v : pyval) :
  Forall (fun c => returns (validate c v)) specs ->
  returns (py_all (List.map (fun c => validate c v) specs)).
Proof.
  induction 1 as [| c l [b Hb] _ IH]; simpl; auto.
  rewrite Hb. simpl. destruct b; auto.
Qed.

Lemma is_mapping_dict (v : pyval) :
  is_mapping v = true -> exists d, v = VDict d.
Proof. destruct v; try discriminate. intros _. now eexists. Qed.

Lemma not_mapping_keys (v : pyval) :
  is_mapping v = false -> keys v = Raise AttributeError.
Proof. destruct v; try reflexivity. discriminate. Qed.

Lemma Chain_returns (specs : list Spec) :
  Forall (fun c => forall v, fits c v ->
                             returns (conform c v) /\ returns (validate c v))
         specs ->
  forall v, fits (Chain specs) v ->
            returns (Chain.conform conform specs v).
Proof.
  induction 1 as [| c l Hc _ IH]; intros v Hfit.
  - apply returns_Ret.
  - rewrite Chain_conform_cons. simpl in Hfit.
    destruct Hfit as [Hfc Hrest].
    destruct (Hc v Hfc) as [[r Hr] _]. rewrite Hr.
    destruct r as [x | e]; [| apply returns_Ret].
    apply IH. exact (Hrest x Hr).
Qed.

Lemma Alt_returns (self : Spec) (ts : list (pyval * Spec)) (v : pyval) :
  Forall (fun tc => forall v, fits (snd tc) v ->
                              returns (conform (snd tc) v)
                              /\ returns (validate (snd tc) v)) ts ->
  fits (Alt ts) v ->
  returns (Alt.conform conform self ts v)
  /\ returns (Alt.validate validate ts v).
Proof.
  unfold Alt.validate.
  induction 1 as [| [tag c] l Hc _ IH]; intros Hfit; simpl; auto.
  simpl in Hfit, Hc. destruct Hfit as [Hfc Hrest].
  destruct (Hc v Hfc) as [[r Hr] [b Hb]]. rewrite Hr, Hb. simpl.
  destruct (IH Hrest) as [IHc IHv].
  split.
  - destruct r as [x | e]; simpl; auto.
  - destruct b; auto.
Qed.

(** On an input that fits the node, both methods return. *)
Lemma fits_returns (s : Spec) :
  forall v, fits s v -> returns (conform s v) /\ returns (validate s v).
Proof.
  induction s as [pred | values | type | specs IH | specs IH | ts IH
                 | required optional strict | key c default IH]
    using Spec_nested_ind; intros v Hfit.
  - now apply Predicate_returns.
  - apply Predicate_returns. simpl in Hfit. unfold Member.pred,
      frozenset_contains. rewrite Hfit. simpl. auto.
  - apply Predicate_returns. unfold Type_.pred. auto.
  - apply (Predicate_returns (All specs) (All.pred validate specs)).
    unfold All.pred.
    assert (Hall : Forall (fun c => returns (validate c v)) specs).
    { simpl in Hfit. induction IH as [| c l Hc _ IHl]; constructor.
      - now apply Hc.
      - apply IHl. apply Hfit. }
    destruct (py_all_returns specs v Hall) as [b Hb]. rewrite Hb.
    simpl. auto.
  - pose proof (Chain_returns specs IH v Hfit) as [r Hr].
    change (conform (Chain specs) v) with (Chain.conform conform specs v).
    change (validate (Chain specs) v) with (Chain.validate conform specs v).
    unfold Chain.validate. rewrite Hr. simpl. auto.
  - apply (Alt_returns (Alt ts) ts v IH Hfit).
  - simpl in Hfit. apply is_mapping_dict in Hfit. destruct Hfit as [d ->].
    rewrite Keys_validate_dict.
    change (conform (Keys required optional strict) (VDict d))
      with (Keys.conform (Keys required optional strict)
              required optional strict (VDict d)).
    unfold Keys.conform.
    change (Keys.validate required optional strict (VDict d))
      with (Ret (A := bool)
              (set_le required (List.map fst d) &&
               (negb strict
                || set_le (List.map fst d) (required ++ optional)))).
    simpl. split; [| auto].
    destruct (set_le required (List.map fst d) &&
              (negb strict
               || set_le (List.map fst d) (required ++ optional))); auto.
  - simpl in Hfit. destruct Hfit as [Hmap [Hhash Hchild]].
    apply is_mapping_dict in Hmap. destruct Hmap as [d ->].
    change (conform (Key key c default) (VDict d))
      with (Key.conform conform key c default (VDict d)).
    change (validate (Key key c default) (VDict d))
      with (Key.validate validate key c (VDict d)).
    unfold Key.conform, Key.validate. revert Hchild.
    simpl. rewrite Hhash.
    destruct (dict_lookup d key) as [x |]; intros Hchild; simpl; auto.
    destruct (IH x (Hchild x eq_refl)) as [[r Hr] Hv]. rewrite Hr.
    split; [| exact Hv].
    destruct r; apply returns_Ret.
Qed.

(** On an input that fits the whole tree the agreement needs no
    assumption on the children. *)
Lemma fits_agree (s : Spec) : forall v, fits s v -> agree s v.
Proof.
  induction s as [pred | values | type | specs IH | specs IH | ts IH
                 | required optional strict | key c default IH]
    using Spec_nested_ind; intros v Hfit; unfold agree.
  - apply Predicate_agree.
  - apply Predicate_agree.
  - apply Predicate_agree.
  - apply (Predicate_agree (All specs) (All.pred validate specs)).
  - reflexivity.
  - apply (Alt_agree (Alt ts)). simpl in Hfit.
    induction IH as [| [t c] l Hc _ IHl]; intros tag c' Hin; [destruct Hin |].
    destruct Hfit as [Hfc Hrest]. destruct Hin as [Heq | Hin].
    + injection Heq as _ <-. now apply Hc.
    + now apply (IHl Hrest tag c').
  - apply Keys_agree.
  - simpl in Hfit. destruct Hfit as [Hmap [_ Hchild]].
    apply is_mapping_dict in Hmap. destruct Hmap as [d ->].
    apply (Key_agree key c default d).
    intros x Hx. apply IH. now apply Hchild.
Qed.

(** What the operations of the result algebra do with callbacks that
    return. *)
Lemma map_returns {A B E : Type} (f : A -> py B) (r : validated A E) :
  (forall x, returns (f x)) -> returns (map f r).
Proof.
  intros Hf. destruct r as [x | e]; [| apply returns_Ret].
  simpl. destruct (Hf x) as [y Hy]. rewrite Hy. apply returns_Ret.
Qed.

Lemma then_returns {A B E : Type} (f : A -> py (validated B E))
    (r : validated A E) :
  (forall x, returns (f x)) -> returns (then_ f r).
Proof. intros Hf. destruct r as [x | e]; [apply Hf | apply returns_Ret]. Qed.

Lemma catch_returns {A E E' : Type} (f : E -> py (validated A E'))
    (r : validated A E) :
  (forall e, returns (f e)) -> returns (catch f r).
Proof. intros Hf. destruct r as [x | e]; [apply returns_Ret | apply Hf]. Qed.

Lemma map_error_returns {A E E' : Type} (f : E -> py E') (r : validated A E) :
  (forall e, returns (f e)) -> returns (map_error f r).
Proof.
  intros Hf. destruct r as [x | e]; [apply returns_Ret |].
  simpl. destruct (Hf e) as [y Hy]. rewrite Hy. apply returns_Ret.
Qed.

Lemma ap_returns {A B E : Type} {add : PyAdd E}
    (self : validated (A -> py B) E) (other : validated A E) :
  (forall f x, self = Valid f -> returns (f x)) ->
  (forall e, returns (py_add e e)) ->
  returns (ap self other).
Proof.
  intros Hf Hadd. destruct self as [f | e1].
  - apply map_returns. intros x. now apply (Hf f x).
  - destruct other as [y | e2]; [apply returns_Ret |].
    simpl. destruct (Hadd e2) as [s Hs]. rewrite Hs. apply returns_Ret.
Qed.

(** C8, as stated, fails: [Keys.validate(5)] and [Keys.conform(5)] raise
    [AttributeError], since an int has no [keys()]. *)
Lemma Keys_non_mapping_raises :
  validate Fixtures.keys_spec (VInt 5) = Raise AttributeError
  /\ conform Fixtures.keys_spec (VInt 5) = Raise AttributeError
  /\ ~ returns (validate Fixtures.keys_spec (VInt 5))
  /\ ~ returns (conform Fixtures.keys_spec (VInt 5)).
Proof.
  repeat split; try reflexivity; apply returns_Raise.
Qed.

(** C8, amended.  [conform] and [validate] return (they do not raise) on
    every input that fits the node: predicates that return, hashable
    [Member] probes, mappings for [Keys] and [Key], hashable [Key] keys.
    In particular [Keys.validate] and [Keys.conform] return for every
    mapping, and for every value that is not a mapping they raise
    [AttributeError].  The operations of the result algebra other than
    [throw] return whenever the callbacks they are given return ([ap] also
    needs [+] to return on the error payload); [throw] returns a [Valid]
    as it is and raises on [Invalid].  ([is_valid], [is_invalid],
    [collect] and [wrap] call nothing that can raise, as their types
    show.) *)
Theorem returns_on_fitting_inputs :
  (forall s v, fits s v -> returns (conform s v) /\ returns (validate s v))
  /\ (forall required optional strict d,
        returns (validate (Keys required optional strict) (VDict d))
        /\ returns (conform (Keys required optional strict) (VDict d)))
  /\ (forall required optional strict v,
        is_mapping v = false ->
        validate (Keys required optional strict) v = Raise AttributeError
        /\ conform (Keys required optional strict) v = Raise AttributeError)
  /\ (forall (A B E : Type) (f : A -> py B) (r : validated A E),
        (forall x, returns (f x)) -> returns (map f r))
  /\ (forall (A B E : Type) (f : A -> py (validated B E)) (r : validated A E),
        (forall x, returns (f x)) -> returns (then_ f r))
  /\ (forall (A E E' : Type) (f : E -> py (validated A E'))
             (r : validated A E),
        (forall e, returns (f e)) -> returns (catch f r))
  /\ (forall (A E E' : Type) (f : E -> py E') (r : validated A E),
        (forall e, returns (f e)) -> returns (map_error f r))
  /\ (forall (A B E : Type) (add : PyAdd E)
             (self : validated (A -> py B) E) (other : validated A E),
        (forall f x, self = Valid f -> returns (f x)) ->
        (forall e, returns (py_add e e)) ->
        returns (ap self other))
  /\ (forall (A E : Type) (f : E -> py exn) (x : A),
        throw f (Valid x) = Ret (Valid x))
  /\ (forall (A E : Type) (f : E -> py exn) (e : E) (x : exn),
        f e = Ret x -> throw (A := A) f (Invalid e) = Raise x).
Proof.
  split; [exact fits_returns |].
  split.
  { intros required optional strict d.
    destruct (fits_returns (Keys required optional strict) (VDict d)
                eq_refl) as [Hc Hv].
    now split. }
  split.
  { intros required optional strict v Hv.
    change (conform (Keys required optional strict) v)
      with (Keys.conform (Keys required optional strict)
              required optional strict v).
    change (validate (Keys required optional strict) v)
      with (Keys.validate required optional strict v).
    unfold Keys.conform, Keys.validate.
    rewrite (not_mapping_keys v Hv). split; reflexivity. }
  split; [intros; now apply map_returns |].
  split; [intros; now apply then_returns |].
  split; [intros; now apply catch_returns |].
  split; [intros; now apply map_error_returns |].
  split; [intros; now apply ap_returns |].
  split; [reflexivity |].
  intros A E f e x Hx. simpl. now rewrite Hx.
Qed.

(** A dict fits [keys_spec] and both methods return on it; the int [5]
    does not, and both raise. *)
Lemma returns_on_fitting_inputs_witness :
  (returns (conform Fixtures.keys_spec (VDict [(VStr "x", VInt 1)]))
   /\ returns (validate Fixtures.keys_spec (VDict [(VStr "x", VInt 1)])))
  /\ (validate Fixtures.keys_spec (VInt 5) = Raise AttributeError
      /\ conform Fixtures.keys_spec (VInt 5) = Raise AttributeError)
  /\ returns (conform Fixtures.key_spec (VDict [(VStr "x", VStr "s")])).
Proof.
  split; [| split].
  - exact (proj1 returns_on_fitting_inputs Fixtures.keys_spec
             (VDict [(VStr "x", VInt 1)]) eq_refl).
  - exact (proj1 (proj2 (proj2 returns_on_fitting_inputs))
             [VStr "x"] [VStr "y"] true (VInt 5) eq_refl).
  - refine (proj1 (proj1 returns_on_fitting_inputs Fixtures.key_spec
                     (VDict [(VStr "x", VStr "s")]) _)).
    simpl. repeat split.
    intros x Hx. injection Hx as <-. apply returns_Ret.
Defined.

(* ===================================================================== *)
(** ** The result algebra: further laws *)
(* ===================================================================== *)

(** X1.  [then] is a monadic bind with [Valid] as unit: [Valid(x).then(f)]
    is [f(x)], [r.then(Valid)] is [r], and chaining two [then] calls is one
    [then] of the chained callbacks; [map(f)] is [then] with the callback's
    result wrapped in [Valid].  The laws hold for callbacks that raise. *)
Theorem then_monad_laws :
  forall (A B C E : Type),
    (forall (f : A -> py (validated B E)) (x : A), then_ f (Valid x) = f x)
    /\ (forall r : validated A E, then_ (fun x => Ret (Valid x)) r = Ret r)
    /\ (forall (f : A -> py (validated B E)) (g : B -> py (validated C E))
               (r : validated A E),
          (r' <- then_ f r ;; then_ g r')
          = then_ (fun x => r' <- f x ;; then_ g r') r)
    /\ (forall (f : A -> py B) (r : validated A E),
          map f r = then_ (fun x => y <- f x ;; Ret (Valid y)) r).
Proof.
  intros A B C E. split; [reflexivity |].
  split; [intros [x | e]; reflexivity |].
  split; [intros f g [x | e]; reflexivity |].
  intros f [x | e]; reflexivity.
Qed.

(** X2.  Exactly one of [is_valid()] and [is_invalid()] is true. *)
Theorem is_valid_xor_is_invalid :
  forall (A E : Type) (r : validated A E),
    is_invalid r = negb (is_valid r)
    /\ (is_valid r = true \/ is_invalid r = true)
    /\ ~ (is_valid r = true /\ is_invalid r = true).
Proof.
  intros A E [x | e]; cbv; (split; [reflexivity | split; [auto |]]);
    intros [H1 H2]; discriminate.
Qed.

(** X3.  [catch] mirrors [then] on the error side: it leaves a [Valid]
    alone without calling the handler, [r.catch(Invalid)] is [r], chained
    handlers compose, and a handler that always returns a [Valid] makes
    the result valid. *)
Theorem catch_laws :
  forall (A E E' E'' : Type),
    (forall (f : E -> py (validated A E')) (x : A),
        catch f (Valid x) = Ret (Valid x))
    /\ (forall r : validated A E, catch (fun e => Ret (Invalid e)) r = Ret r)
    /\ (forall (f : E -> py (validated A E')) (g : E' -> py (validated A E''))
               (r : validated A E),
          (r' <- catch f r ;; catch g r')
          = catch (fun e => r' <- f e ;; catch g r') r)
    /\ (forall (g : E -> A) (r : validated A E),
          exists x : A,
            catch (E' := E') (fun e => Ret (Valid (g e))) r = Ret (Valid x)).
Proof.
  intros A E E' E''. split; [reflexivity |].
  split; [intros [x | e]; reflexivity |].
  split; [intros f g [x | e]; reflexivity |].
  intros g [x | e]; eexists; reflexivity.
Qed.

(** X4.  [map_error] is a functor on the error side and commutes with
    [map]: mapping the payload and mapping the error can be done in either
    order, with the same result or the same exception. *)
Theorem map_error_laws :
  forall (A B E E' E'' : Type),
    (forall r : validated A E, map_error (fun e => Ret e) r = Ret r)
    /\ (forall (f : E -> py E') (g : E' -> py E'') (r : validated A E),
          (r' <- map_error f r ;; map_error g r')
          = map_error (py_compose g f) r)
    /\ (forall (f : A -> py B) (g : E -> py E') (r : validated A E),
          (r' <- map f r ;; map_error g r')
          = (r' <- map_error g r ;; map f r'))
    /\ (forall (g : E -> py E') (r : validated A E) (r' : validated A E'),
          map_error g r = Ret r' -> is_valid r' = is_valid r).
Proof.
  intros A B E E' E''. split; [intros [x | e]; reflexivity |].
  split.
  { intros f g [x | e]; [reflexivity |].
    unfold map_error, py_compose, verify. destruct (f e); reflexivity. }
  split.
  { intros f g [x | e]; unfold map, map_error, verify, prelude.const; simpl.
    - destruct (f x); reflexivity.
    - destruct (g e); reflexivity. }
  intros g [x | e] r'; simpl.
  - intros H. injection H as <-. reflexivity.
  - destruct (g e); simpl; intros H; [| discriminate].
    injection H as <-. reflexivity.
Qed.

Lemma map_error_laws_witness :
  is_valid (Invalid (A := Z) (2%Z)) = is_valid (Invalid (A := Z) (1%Z)).
Proof.
  exact (proj2 (proj2 (proj2 (map_error_laws Z Z Z Z Z)))
           (fun e => Ret (e + 1)%Z) (Invalid 1%Z) (Invalid 2%Z) eq_refl).
Defined.

(** X5.  [throw] never returns an [Invalid]: when it returns, the result
    is [self] and [self] is valid; on a [Valid] it returns without calling
    [f]; on an [Invalid] it does not return. *)
Theorem throw_returns_only_valid :
  forall (A E : Type) (f : E -> py exn) (r : validated A E),
    (forall r', throw f r = Ret r' -> r' = r /\ is_valid r = true)
    /\ (is_valid r = true -> throw f r = Ret r)
    /\ (is_invalid r = true -> ~ returns (throw f r)).
Proof.
  intros A E f [x | e]; simpl.
  - split; [| split].
    + intros r' H. injection H as <-. now split.
    + reflexivity.
    + discriminate.
  - split; [| split].
    + intros r'. destruct (f e); discriminate.
    + discriminate.
    + intros _ [r' H]. destruct (f e); discriminate.
Qed.

Lemma throw_returns_only_valid_witness :
  throw (A := Z) (fun _ : Z => Ret TypeError) (Valid 3%Z) = Ret (Valid 3%Z)
  /\ ~ returns (throw (A := Z) (fun _ : Z => Ret TypeError) (Invalid 4%Z)).
Proof.
  split.
  - exact (proj1 (proj2 (throw_returns_only_valid Z Z
                           (fun _ => Ret TypeError) (Valid 3%Z))) eq_refl).
  - exact (proj2 (proj2 (throw_returns_only_valid Z Z
                           (fun _ => Ret TypeError) (Invalid 4%Z))) eq_refl).
Defined.

(** X6.  When [ap] returns, its result is valid exactly when both operands
    are; with a valid left operand [ap] is [map] of the held function, so
    [Valid(identity).ap(r)] is [r] and [Valid(f).ap(Valid(x))] is
    [Valid(f(x))]. *)
Theorem ap_valid_iff_both_valid :
  forall (A B E : Type) (add : PyAdd E),
    (forall (self : validated (A -> py B) E) (other : validated A E)
            (r : validated B E),
        ap self other = Ret r -> is_valid r = is_valid self && is_valid other)
    /\ (forall (f : A -> py B) (other : validated A E),
          ap (Valid f) other = map f other)
    /\ (forall r : validated A E,
          ap (Valid (pure_fn prelude.identity)) r = Ret r)
    /\ (forall (f : A -> py B) (x : A),
          ap (E := E) (Valid f) (Valid x) = (y <- f x ;; Ret (Valid y))).
Proof.
  intros A B E add. split.
  { intros [f | e1] [x | e2] r; simpl.
    - destruct (f x); simpl; intros H; [| discriminate].
      injection H as <-. reflexivity.
    - intros H. injection H as <-. reflexivity.
    - intros H. injection H as <-. reflexivity.
    - destruct (py_add e2 e2); simpl; intros H; [| discriminate].
      injection H as <-. reflexivity. }
  split; [reflexivity |].
  split; [intros [x | e]; reflexivity | reflexivity].
Qed.

Lemma ap_valid_iff_both_valid_witness :
  is_valid (Valid (E := list Z) 4%Z)
  = is_valid (Valid (E := list Z) (fun x : Z => Ret (x + 1)%Z))
    && is_valid (Valid (E := list Z) 3%Z).
Proof.
  exact (proj1 (ap_valid_iff_both_valid Z Z (list Z) _)
           (Valid (fun x => Ret (x + 1)%Z)) (Valid 3%Z) (Valid 4%Z) eq_refl).
Defined.

(** X7.  [wrap(flag, v)] holds [v] and is valid exactly when [flag] is
    true, and [Predicate.conform] is [from_predicate] on the predicate's
    truth value with the rejected value wrapped in a [SpecError] naming
    the node. *)
Theorem from_predicate_gives_Predicate_conform :
  (forall (A : Type) (flag : bool) (v : A),
      is_valid (wrap flag v) = flag
      /\ payload (wrap flag v) = (if flag then inl v else inr v))
  /\ (forall (A : Type) (pred : A -> py bool) (v : A) (r : validated A A),
        from_predicate pred v = Ret r ->
        pred v = Ret (is_valid r) /\ (r = Valid v \/ r = Invalid v))
  /\ (forall (self : Spec) (pred : pyval -> py pyval) (v : pyval),
        Predicate.conform self pred v
        = (r <- from_predicate (fun x => t <- pred x ;; Ret (truthy t)) v ;;
           map_error (fun x => Ret (mkSpecError x self)) r)).
Proof.
  split; [intros A [|] v; split; reflexivity |].
  split.
  - intros A pred v r. unfold from_predicate.
    destruct (pred v) as [[|] | x]; simpl; intros H; try discriminate;
      injection H as <-; split; auto.
  - intros self pred v. unfold Predicate.conform, from_predicate.
    destruct (pred v) as [t | x]; [| reflexivity].
    simpl. destruct (truthy t); reflexivity.
Qed.

Lemma from_predicate_gives_Predicate_conform_witness :
  (fun x : Z => Ret (0 <? x)%Z) 3%Z = Ret (is_valid (@Valid Z Z 3%Z))
  /\ (@Valid Z Z 3%Z = Valid 3%Z \/ @Valid Z Z 3%Z = Invalid 3%Z).
Proof.
  exact (proj1 (proj2 from_predicate_gives_Predicate_conform) Z
           (fun x => Ret (0 <? x)%Z) 3%Z (Valid 3%Z) eq_refl).
Defined.

(** [collect], case by case. *)
Lemma collect_eq {A E : Type} (l : list (validated A E)) :
  collect l
  = if existsb is_invalid l
    then Invalid (List.map inr (error_payloads l))
    else Valid (List.map inl (valid_payloads l)).
Proof.
  unfold collect.
  pose proof (sep_by_invalid_payloads l) as Hi.
  pose proof (sep_by_valid_payloads l) as Hv.
  pose proof (sep_by_invalid_count l) as Hc.
  destruct (prelude.sep_by is_valid l) as [vals invs]. simpl in *.
  now rewrite Hc, Hi, Hv.
Qed.

Lemma existsb_is_invalid_forallb {A E : Type} (l : list (validated A E)) :
  existsb is_invalid l = negb (forallb is_valid l).
Proof.
  induction l as [| [x | e] l IH]; simpl; [reflexivity | exact IH | reflexivity].
Qed.

(** X8.  [collect] of the empty sequence is [Valid([])]; of a sequence of
    [Valid]s it is [Valid] of their payloads; its result is valid exactly
    when every element is; and collecting a concatenation is valid exactly
    when collecting each part is. *)
Theorem collect_valid_iff_all_valid :
  forall (A E : Type),
    collect (@nil (validated A E)) = Valid []
    /\ (forall xs : list A,
          collect (List.map (@Valid A E) xs) = Valid (List.map inl xs))
    /\ (forall l : list (validated A E),
          is_valid (collect l) = forallb is_valid l)
    /\ (forall l1 l2 : list (validated A E),
          is_valid (collect (l1 ++ l2))
          = is_valid (collect l1) && is_valid (collect l2)).
Proof.
  intros A E.
  assert (Hv : forall l : list (validated A E),
             is_valid (collect l) = forallb is_valid l).
  { intros l. rewrite collect_eq, existsb_is_invalid_forallb.
    destruct (forallb is_valid l); reflexivity. }
  split; [reflexivity |].
  split.
  { intros xs. rewrite collect_eq.
    assert (Hex : existsb is_invalid (List.map (@Valid A E) xs) = false)
      by (induction xs; simpl; auto).
    rewrite Hex. f_equal. f_equal.
    induction xs as [| x xs IH]; simpl; [reflexivity | now rewrite IH]. }
  split; [exact Hv |].
  intros l1 l2. rewrite !Hv. apply forallb_app.
Qed.

(* ===================================================================== *)
(** ** Specification nodes: further properties *)
(* ===================================================================== *)

Lemma Predicate_conform_cases (self : Spec) (pred : pyval -> py pyval)
    (v : pyval) (r : result) :
  Predicate.conform self pred v = Ret r ->
  r = Valid v \/ r = Invalid (mkSpecError v self).
Proof.
  unfold Predicate.conform. destruct (pred v) as [t | x]; [| discriminate].
  simpl. destruct (truthy t); intros H; injection H as <-; auto.
Qed.

Lemma plain_conform_cases (s : Spec) (v : pyval) (r : result) :
  plain s = true ->
  conform s v = Ret r ->
  r = Valid v \/ r = Invalid (mkSpecError v s).
Proof.
  destruct s; try discriminate; intros _; simpl;
    try apply Predicate_conform_cases.
  unfold Keys.conform.
  destruct (Keys.validate required optional strict v) as [[|] | x];
    simpl; intros H; try discriminate; injection H as <-; auto.
Qed.

Lemma plain_agree (s : Spec) (v : pyval) : plain s = true -> agree s v.
Proof.
  unfold agree. destruct s; try discriminate; intros _.
  - apply Predicate_agree.
  - apply Predicate_agree.
  - apply Predicate_agree.
  - apply (Predicate_agree (All specs) (All.pred validate specs)).
  - apply Keys_agree.
Qed.

(** X9.  The [Predicate] family ([Predicate], [Member], [Type], [All])
    and [Keys] never transform: when [conform(v)] returns, the result is
    [Valid(v)] with the input as it was, or [Invalid(SpecError(v, self))]
    carrying the input and the node itself. *)
Theorem plain_conform_keeps_value :
  forall (s : Spec) (v : pyval) (r : result),
    plain s = true ->
    conform s v = Ret r ->
    r = Valid v \/ r = Invalid (mkSpecError v s).
Proof. exact plain_conform_cases. Qed.

Lemma plain_conform_keeps_value_witness :
  @Valid pyval (SpecError Spec) (VDict [(VStr "x", VInt 1)])
  = Valid (VDict [(VStr "x", VInt 1)])
  \/ @Valid pyval (SpecError Spec) (VDict [(VStr "x", VInt 1)])
     = Invalid (mkSpecError (VDict [(VStr "x", VInt 1)]) Fixtures.keys_spec).
Proof.
  exact (plain_conform_keeps_value Fixtures.keys_spec
           (VDict [(VStr "x", VInt 1)]) (Valid (VDict [(VStr "x", VInt 1)]))
           eq_refl eq_refl).
Defined.

(** X10.  [Member(values).validate(v)] on a hashable [v] is true exactly
    when [v] equals one of the members, so [Member({1,2,3})] accepts [2],
    rejects [9], and accepts [True] (which equals [1]); on an unhashable
    [v] both methods raise [TypeError]. *)
Theorem Member_validate_membership :
  (forall (values : list pyval) (v : pyval),
      hashable v = true ->
      validate (Member values) v = Ret (key_in v values)
      /\ (validate (Member values) v = Ret true <-> key_listed v values))
  /\ (forall (values : list pyval) (v : pyval),
        hashable v = false ->
        validate (Member values) v = Raise TypeError
        /\ conform (Member values) v = Raise TypeError)
  /\ validate (Member [VInt 1; VInt 2; VInt 3]) (VInt 2) = Ret true
  /\ validate (Member [VInt 1; VInt 2; VInt 3]) (VInt 9) = Ret false
  /\ validate (Member [VInt 1; VInt 2; VInt 3]) (VBool true) = Ret true.
Proof.
  split; [| split; [| repeat split]].
  - intros values v Hh.
    assert (Heq : validate (Member values) v = Ret (key_in v values)).
    { simpl. unfold Predicate.validate, Member.pred, frozenset_contains.
      rewrite Hh. simpl. destruct (key_in v values); reflexivity. }
    split; [exact Heq |]. rewrite Heq, <- key_in_listed.
    split; [intros H; now injection H | intros ->; reflexivity].
  - intros values v Hh. simpl.
    unfold Predicate.validate, Predicate.conform, Member.pred,
      frozenset_contains.
    rewrite Hh. split; reflexivity.
Qed.

Lemma Member_validate_membership_witness :
  validate (Member [VInt 1]) (VList [VInt 1]) = Raise TypeError
  /\ conform (Member [VInt 1]) (VList [VInt 1]) = Raise TypeError.
Proof.
  exact (proj1 (proj2 Member_validate_membership)
           [VInt 1] (VList [VInt 1]) eq_refl).
Defined.

(** [all] and [any] over calls: what decides the outcome. *)
Lemma py_all_true (l : list (py bool)) :
  py_all l = Ret true <-> (forall c, In c l -> c = Ret true).
Proof.
  induction l as [| c l IH]; simpl.
  - split; [intros _ c [] | reflexivity].
  - destruct c as [[|] | x]; simpl.
    + rewrite IH. split.
      * intros H c [<- | Hin]; auto.
      * intros H c Hin. apply H. now right.
    + split; [discriminate |].
      intros H. apply (H (Ret false)). now left.
    + split; [discriminate |].
      intros H. apply (H (Raise x)). now left.
Qed.

Lemma py_all_false (pre post : list (py bool)) :
  (forall c, In c pre -> c = Ret true) ->
  py_all (pre ++ Ret false :: post) = Ret false.
Proof.
  induction pre as [| c pre IH]; intros H; [reflexivity |].
  simpl. rewrite (H c (or_introl eq_refl)). simpl.
  apply IH. intros c' Hin. apply H. now right.
Qed.

Lemma py_any_true (pre post : list (py bool)) :
  (forall c, In c pre -> c = Ret false) ->
  py_any (pre ++ Ret true :: post) = Ret true.
Proof.
  induction pre as [| c pre IH]; intros H; [reflexivity |].
  simpl. rewrite (H c (or_introl eq_refl)). simpl.
  apply IH. intros c' Hin. apply H. now right.
Qed.

Lemma py_any_false (l : list (py bool)) :
  py_any l = Ret false <-> (forall c, In c l -> c = Ret false).
Proof.
  induction l as [| c l IH]; simpl.
  - split; [intros _ c [] | reflexivity].
  - destruct c as [[|] | x]; simpl.
    + split; [discriminate |].
      intros H. apply (H (Ret true)). now left.
    + rewrite IH. split.
      * intros H c [<- | Hin]; auto.
      * intros H c Hin. apply H. now right.
    + split; [discriminate |].
      intros H. apply (H (Raise x)). now left.
Qed.

Lemma py_any_true_inv (l : list (py bool)) :
  py_any l = Ret true -> In (Ret true) l.
Proof.
  induction l as [| c l IH]; simpl; [discriminate |].
  destruct c as [[|] | x]; simpl; [now left | | discriminate].
  intros H. right. now apply IH.
Qed.

Lemma All_validate_eq (specs : list Spec) (v : pyval) :
  validate (All specs) v = py_all (List.map (fun c => validate c v) specs).
Proof.
  simpl. unfold Predicate.validate, All.pred.
  destruct (py_all _) as [[|] | x]; reflexivity.
Qed.

Lemma All_conform_eq (specs : list Spec) (v : pyval) :
  conform (All specs) v
  = (b <- validate (All specs) v ;;
     if b then Ret (Valid v) else Ret (Invalid (mkSpecError v (All specs)))).
Proof.
  rewrite All_validate_eq. simpl. unfold Predicate.conform, All.pred.
  destruct (py_all _) as [[|] | x]; reflexivity.
Qed.

(** X11.  [All] validates exactly when every child validates, and stops
    at the first child that does not: when the children before [c]
    validate and [c] does not, the result is false whatever the later
    children would do, and [conform] reports [SpecError(v, self)] for the
    [All] node, not for [c].  An [All] of nothing accepts every value, and
    an accepted value is returned as it is. *)
Theorem All_validate_short_circuit :
  forall (v : pyval),
    (forall specs,
        validate (All specs) v = Ret true
        <-> (forall c, In c specs -> validate c v = Ret true))
    /\ (forall specs,
          validate (All specs) v = Ret true ->
          conform (All specs) v = Ret (Valid v))
    /\ (forall pre c post,
          (forall c', In c' pre -> validate c' v = Ret true) ->
          validate c v = Ret false ->
          validate (All (pre ++ c :: post)) v = Ret false
          /\ conform (All (pre ++ c :: post)) v
             = Ret (Invalid (mkSpecError v (All (pre ++ c :: post)))))
    /\ conform (All []) v = Ret (Valid v).
Proof.
  intros v. split; [| split; [| split; [| reflexivity]]].
  - intros specs. rewrite All_validate_eq, py_all_true. split.
    + intros H c Hin. apply H. apply in_map_iff. now exists c.
    + intros H c Hin. apply in_map_iff in Hin.
      destruct Hin as [c' [<- Hin]]. now apply H.
  - intros specs H. rewrite All_conform_eq, H. reflexivity.
  - intros pre c post Hpre Hc.
    assert (Hv : validate (All (pre ++ c :: post)) v = Ret false).
    { rewrite All_validate_eq, map_app. simpl. rewrite Hc.
      apply py_all_false. intros c' Hin. apply in_map_iff in Hin.
      destruct Hin as [c0 [<- Hin]]. now apply Hpre. }
    split; [exact Hv |]. rewrite All_conform_eq, Hv. reflexivity.
Qed.

(** The second child rejects [3]; the third, which would raise on a
    string, is never asked. *)
Lemma All_validate_short_circuit_witness :
  validate (All ([Predicate Fixtures.is_positive]
                 ++ Predicate Fixtures.is_even
                 :: [Predicate (fun _ => Raise (UserError "boom"))]))
           (VInt 3)
  = Ret false
  /\ conform (All ([Predicate Fixtures.is_positive]
                   ++ Predicate Fixtures.is_even
                   :: [Predicate (fun _ => Raise (UserError "boom"))]))
             (VInt 3)
     = Ret (Invalid
              (mkSpecError (VInt 3)
                 (All ([Predicate Fixtures.is_positive]
                       ++ Predicate Fixtures.is_even
                       :: [Predicate (fun _ => Raise (UserError "boom"))])))).
Proof.
  refine (proj1 (proj2 (proj2 (All_validate_short_circuit (VInt 3))))
            [Predicate Fixtures.is_positive] (Predicate Fixtures.is_even)
            [Predicate (fun _ => Raise (UserError "boom"))] _ eq_refl).
  intros c' [<- | []]. reflexivity.
Defined.

(** X12.  [Alt.validate] is true as soon as one branch validates: the
    branches before it must have said no, the ones after it are not asked.
    It is false exactly when every branch says no, so an [Alt] without
    branches rejects every value; and a true answer always comes from a
    branch that validates. *)
Theorem Alt_validate_any_branch :
  forall (v : pyval),
    (forall pre tag c post,
        (forall t c', In (t, c') pre -> validate c' v = Ret false) ->
        validate c v = Ret true ->
        validate (Alt (pre ++ (tag, c) :: post)) v = Ret true)
    /\ (forall ts,
          validate (Alt ts) v = Ret false
          <-> (forall t c, In (t, c) ts -> validate c v = Ret false))
    /\ (forall ts,
          validate (Alt ts) v = Ret true ->
          exists t c, In (t, c) ts /\ validate c v = Ret true)
    /\ validate (Alt []) v = Ret false
    /\ conform (Alt []) v = Ret (Invalid (mkSpecError v (Alt []))).
Proof.
  intros v. split; [| split; [| split; [| split; reflexivity]]].
  - intros pre tag c post Hpre Hc. simpl. unfold Alt.validate.
    rewrite map_app. simpl. rewrite Hc. apply py_any_true.
    intros c0 Hin. apply in_map_iff in Hin.
    destruct Hin as [[t c'] [<- Hin]]. now apply (Hpre t c').
  - intros ts. simpl. unfold Alt.validate. rewrite py_any_false. split.
    + intros H t c Hin. apply H. apply in_map_iff. now exists (t, c).
    + intros H c0 Hin. apply in_map_iff in Hin.
      destruct Hin as [[t c] [<- Hin]]. now apply (H t c).
  - intros ts H. simpl in H. unfold Alt.validate in H.
    apply py_any_true_inv in H. apply in_map_iff in H.
    destruct H as [[t c] [Heq Hin]]. now exists t, c.
Qed.

(** The first branch says no to ["b"], the second says yes, and the third,
    which would raise, is not asked. *)
Lemma Alt_validate_any_branch_witness :
  validate (Alt ([(VStr "a", Predicate (Fixtures.equals (VStr "a")))]
                 ++ (VStr "b", Predicate (Fixtures.equals (VStr "b")))
                 :: [(VStr "c", Predicate (fun _ => Raise TypeError))]))
           (VStr "b")
  = Ret true.
Proof.
  refine (proj1 (Alt_validate_any_branch (VStr "b"))
            [(VStr "a", Predicate (Fixtures.equals (VStr "a")))]
            (VStr "b") (Predicate (Fixtures.equals (VStr "b")))
            [(VStr "c", Predicate (fun _ => Raise TypeError))] _ eq_refl).
  intros t c' [Heq | []]. injection Heq as _ <-. reflexivity.
Defined.

Lemma Alt_conform_inv (self : Spec) (ts : list (pyval * Spec)) (v : pyval)
    (r : result) :
  Alt.conform conform self ts v = Ret r ->
  (exists tag c x, In (tag, c) ts /\ conform c v = Ret (Valid x)
                   /\ r = Valid (VTuple [tag; x]))
  \/ (r = Invalid (mkSpecError v self)
      /\ forall tag c, In (tag, c) ts ->
                       exists e, conform c v = Ret (Invalid e)).
Proof.
  induction ts as [| [tag c] ts IH]; simpl.
  - intros H. injection H as <-. right. split; [reflexivity | intros ? ? []].
  - destruct (conform c v) as [[x | e] | z] eqn:Hc; simpl;
      [| | discriminate].
    + intros H. injection H as <-. left. exists tag, c, x. auto.
    + intros H. destruct (IH H) as [[t' [c' [x [Hin [Hx Hr]]]]] | [Hr Hall]].
      * left. exists t', c', x. auto.
      * right. split; [exact Hr |].
        intros t' c' [Heq | Hin]; [| now apply (Hall t' c')].
        injection Heq as <- <-. now exists e.
Qed.

(** X13.  Whatever [Alt.conform] returns comes from its branches: a
    [Valid] result is [(tag, x)] for a branch [(tag, spec)] of the node
    whose spec conformed [v] to [x], and an [Invalid] result is always
    [SpecError(v, self)] for the [Alt] node, returned only when every
    branch returned [Invalid]; no branch error is ever passed on. *)
Theorem Alt_conform_result_from_branches :
  forall (ts : list (pyval * Spec)) (v : pyval) (r : result),
    conform (Alt ts) v = Ret r ->
    (exists tag c x, In (tag, c) ts /\ conform c v = Ret (Valid x)
                     /\ r = Valid (VTuple [tag; x]))
    \/ (r = Invalid (mkSpecError v (Alt ts))
        /\ forall tag c, In (tag, c) ts ->
                         exists e, conform c v = Ret (Invalid e)).
Proof. intros ts v r H. now apply (Alt_conform_inv (Alt ts)). Qed.

Lemma Alt_conform_result_from_branches_witness :
  (exists tag c x,
      In (tag, c) [(VStr "a", Predicate (Fixtures.equals (VStr "a")));
                   (VStr "b", Predicate (Fixtures.equals (VStr "b")))]
      /\ conform c (VStr "c") = Ret (Valid x)
      /\ @Invalid pyval (SpecError Spec)
           (mkSpecError (VStr "c") Fixtures.alt_spec)
         = Valid (VTuple [tag; x]))
  \/ (@Invalid pyval (SpecError Spec)
        (mkSpecError (VStr "c") Fixtures.alt_spec)
      = Invalid (mkSpecError (VStr "c") Fixtures.alt_spec)
      /\ forall tag c,
           In (tag, c) [(VStr "a", Predicate (Fixtures.equals (VStr "a")));
                        (VStr "b", Predicate (Fixtures.equals (VStr "b")))] ->
           exists e, conform c (VStr "c") = Ret (Invalid e)).
Proof.
  exact (Alt_conform_result_from_branches
           [(VStr "a", Predicate (Fixtures.equals (VStr "a")));
            (VStr "b", Predicate (Fixtures.equals (VStr "b")))]
           (VStr "c")
           (Invalid (mkSpecError (VStr "c") Fixtures.alt_spec)) eq_refl).
Defined.

Lemma Chain_conform_single (s : Spec) (v : pyval) :
  conform (Chain [s]) v = conform s v.
Proof.
  change (conform (Chain [s]) v) with (Chain.conform conform [s] v).
  rewrite Chain_conform_cons.
  destruct (conform s v) as [[x | e] | z]; reflexivity.
Qed.

(** X14.  [Chain] composes: a chain of one stage is that stage, a chain of
    no stage accepts every value unchanged, and a chain of two chains is
    the chain of their stages put end to end, for [conform] and for
    [validate]. *)
Theorem Chain_flattens :
  (forall s v, conform (Chain [s]) v = conform s v)
  /\ (forall v, validate (Chain []) v = Ret true)
  /\ (forall a b v,
        conform (Chain [Chain a; Chain b]) v = conform (Chain (a ++ b)) v)
  /\ (forall a b v,
        validate (Chain [Chain a; Chain b]) v = validate (Chain (a ++ b)) v).
Proof.
  assert (Hflat : forall a b v,
             conform (Chain [Chain a; Chain b]) v
             = conform (Chain (a ++ b)) v).
  { intros a b v.
    change (conform (Chain [Chain a; Chain b]) v)
      with (Chain.conform conform [Chain a; Chain b] v).
    rewrite Chain_conform_cons.
    change (conform (Chain (a ++ b)) v)
      with (Chain.conform conform (a ++ b) v).
    rewrite Chain_conform_app.
    change (conform (Chain a) v) with (Chain.conform conform a v).
    destruct (Chain.conform conform a v) as [[x | e] | z];
      [apply (Chain_conform_single (Chain b) x) | reflexivity | reflexivity]. }
  split; [exact Chain_conform_single |].
  split; [reflexivity |].
  split; [exact Hflat |].
  intros a b v.
  change (validate (Chain [Chain a; Chain b]) v)
    with (r <- conform (Chain [Chain a; Chain b]) v ;; Ret (is_valid r)).
  change (validate (Chain (a ++ b)) v)
    with (r <- conform (Chain (a ++ b)) v ;; Ret (is_valid r)).
  now rewrite Hflat.
Qed.

Lemma Chain_plain_conform (specs : list Spec) :
  forallb plain specs = true ->
  forall v r,
    Chain.conform conform specs v = Ret r ->
    r = Valid v \/ exists s, In s specs /\ r = Invalid (mkSpecError v s).
Proof.
  induction specs as [| c l IH]; intros Hp v r.
  - intros H. injection H as <-. now left.
  - simpl in Hp. apply andb_true_iff in Hp. destruct Hp as [Hc Hl].
    rewrite Chain_conform_cons.
    destruct (conform c v) as [[x | e] | z] eqn:Hcv; [| | discriminate].
    + destruct (plain_conform_cases c v _ Hc Hcv) as [Hx | Hx];
        [| discriminate].
      injection Hx as ->. intros H.
      destruct (IH Hl v r H) as [-> | [s [Hin ->]]]; [now left |].
      right. exists s. split; [now right | reflexivity].
    + destruct (plain_conform_cases c v _ Hc Hcv) as [Hx | Hx];
        [discriminate |].
      intros H. injection H as <-. right. exists c.
      split; [now left | exact Hx].
Qed.

Lemma Chain_plain_validate (specs : list Spec) (v : pyval) :
  forallb plain specs = true ->
  (r <- Chain.conform conform specs v ;; Ret (is_valid r))
  = py_all (List.map (fun c => validate c v) specs).
Proof.
  induction specs as [| c l IH]; intros Hp; [reflexivity |].
  simpl in Hp. apply andb_true_iff in Hp. destruct Hp as [Hc Hl].
  rewrite Chain_conform_cons. simpl List.map. simpl py_all.
  rewrite (plain_agree c v Hc).
  destruct (conform c v) as [[x | e] | z] eqn:Hcv; simpl; try reflexivity.
  destruct (plain_conform_cases c v _ Hc Hcv) as [Hx | Hx]; [| discriminate].
  injection Hx as ->. now apply IH.
Qed.

(** X15.  When every stage is a node that does not transform (the
    [Predicate] family and [Keys]), a [Chain] checks like an [All] of the
    same stages: [validate] has the same outcome, a valid [conform]
    returns the input unchanged, and an invalid one carries the input and
    the stage that rejected it. *)
Theorem Chain_of_checks_is_All :
  forall (specs : list Spec) (v : pyval),
    forallb plain specs = true ->
    validate (Chain specs) v = validate (All specs) v
    /\ (forall r, conform (Chain specs) v = Ret r ->
                  r = Valid v
                  \/ exists s, In s specs /\ r = Invalid (mkSpecError v s)).
Proof.
  intros specs v Hp. split.
  - rewrite All_validate_eq.
    change (validate (Chain specs) v)
      with (r <- Chain.conform conform specs v ;; Ret (is_valid r)).
    now apply Chain_plain_validate.
  - intros r H. now apply (Chain_plain_conform specs Hp v r).
Qed.

Lemma Chain_of_checks_is_All_witness :
  validate (Chain [Predicate Fixtures.is_positive;
                   Predicate Fixtures.is_even]) (VInt 3)
  = validate (All [Predicate Fixtures.is_positive;
                   Predicate Fixtures.is_even]) (VInt 3).
Proof.
  exact (proj1 (Chain_of_checks_is_All
                  [Predicate Fixtures.is_positive; Predicate Fixtures.is_even]
                  (VInt 3) eq_refl)).
Defined.

(** X16.  [Key.conform] has no error of its own.  When it returns, either
    the subscript raised [KeyError] and the result is
    [Valid((key, default))], with the default taken as it is, or the field
    value [k] was found and the result is the child's: [Valid((key, x))]
    for the child's [Valid(x)], the child's [Invalid] otherwise.  A valid
    result is always a pair headed by the key. *)
Theorem Key_conform_result_shape :
  forall (key : pyval) (c : Spec) (default v : pyval) (r : result),
    conform (Key key c default) v = Ret r ->
    ((getitem v key = Raise KeyError /\ r = Valid (VTuple [key; default]))
     \/ (exists k x, getitem v key = Ret k /\ conform c k = Ret (Valid x)
                     /\ r = Valid (VTuple [key; x]))
     \/ (exists k e, getitem v key = Ret k /\ conform c k = Ret (Invalid e)
                     /\ r = Invalid e))
    /\ (is_valid r = true -> exists x, r = Valid (VTuple [key; x])).
Proof.
  intros key c default v r.
  change (conform (Key key c default) v)
    with (Key.conform conform key c default v).
  unfold Key.conform.
  destruct (getitem v key) as [k | z].
  - destruct (conform c k) as [[x | e] | z] eqn:Hc; simpl;
      intros H; try discriminate; injection H as <-.
    + split; [right; left; now exists k, x | intros _; now exists x].
    + split; [right; right; now exists k, e | discriminate].
  - destruct z; intros H; try discriminate. injection H as <-.
    split; [now left | intros _; now exists default].
Qed.

Lemma Key_conform_result_shape_witness :
  exists x,
    @Valid pyval (SpecError Spec) (VTuple [VStr "x"; VInt 0])
    = Valid (VTuple [VStr "x"; x]).
Proof.
  exact (proj2 (Key_conform_result_shape (VStr "x")
                  (Predicate Fixtures.is_int) (VInt 0) (VDict [])
                  (Valid (VTuple [VStr "x"; VInt 0])) eq_refl) eq_refl).
Defined.

(** X17.  [Key] on a list, which it is not written for: [validate] tests
    membership with [in], [conform] subscripts and only catches
    [KeyError].  For an integer key that is no element of the list and no
    valid index, [validate] returns true while [conform] raises
    [IndexError]. *)
Theorem Key_on_list_validate_conform_differ :
  forall (items : list pyval) (key : pyval) (c : Spec) (default : pyval)
         (i : Z),
    as_index key = Some i ->
    (Z.of_nat (List.length items) <= i)%Z ->
    existsb (fun x => py_eq x key) items = false ->
    validate (Key key c default) (VList items) = Ret true
    /\ conform (Key key c default) (VList items) = Raise IndexError.
Proof.
  intros items key c default i Hidx Hlen Hnot. split.
  - change (validate (Key key c default) (VList items))
      with (Key.validate validate key c (VList items)).
    unfold Key.validate. simpl. rewrite Hnot. reflexivity.
  - change (conform (Key key c default) (VList items))
      with (Key.conform conform key c default (VList items)).
    unfold Key.conform. simpl. rewrite Hidx. unfold seq_index.
    assert (Hneg : (i <? 0)%Z = false) by (apply Z.ltb_ge; lia).
    rewrite Hneg.
    assert (Hge : (Z.of_nat (List.length items) <=? i)%Z = true)
      by (apply Z.leb_le; lia).
    rewrite Hneg, Hge. reflexivity.
Qed.

Lemma Key_on_list_validate_conform_differ_witness :
  validate (Key (VInt 5) (Predicate Fixtures.is_int) VNone)
           (VList [VInt 1; VInt 2]) = Ret true
  /\ conform (Key (VInt 5) (Predicate Fixtures.is_int) VNone)
             (VList [VInt 1; VInt 2]) = Raise IndexError.
Proof.
  apply (Key_on_list_validate_conform_differ
           [VInt 1; VInt 2] (VInt 5) (Predicate Fixtures.is_int) VNone 5%Z);
    [reflexivity | simpl; lia | reflexivity].
Defined.

Lemma set_le_nil_r (a : list pyval) : set_le a [] = true <-> a = [].
Proof.
  destruct a as [| x a]; simpl; split; auto; discriminate.
Qed.

(** X18.  [Keys] looks at the key set only.  Without [strict] the
    [optional] set plays no part; a mapping accepted under [strict] is
    accepted without it; two mappings with the same keys get the same
    answer whatever their values; and the default [Keys()] (nothing
    required, nothing optional, strict) accepts the empty mapping and no
    other. *)
Theorem Keys_validate_key_set_only :
  (forall required optional optional' v,
      validate (Keys required optional false) v
      = validate (Keys required optional' false) v)
  /\ (forall required optional d,
        validate (Keys required optional true) (VDict d) = Ret true ->
        validate (Keys required optional false) (VDict d) = Ret true)
  /\ (forall required optional strict d d',
        List.map fst d = List.map fst d' ->
        validate (Keys required optional strict) (VDict d)
        = validate (Keys required optional strict) (VDict d'))
  /\ (forall d, validate (Keys [] [] true) (VDict d) = Ret true <-> d = []).
Proof.
  split; [| split; [| split]].
  - intros required optional optional' v. simpl. unfold Keys.validate.
    destruct (keys v); reflexivity.
  - intros required optional d. rewrite !Keys_validate_dict. simpl.
    intros H. injection H as H. apply andb_true_iff in H.
    destruct H as [-> _]. reflexivity.
  - intros required optional strict d d' Hk.
    rewrite !Keys_validate_dict. now rewrite Hk.
  - intros d. rewrite Keys_validate_dict. simpl.
    split.
    + intros H. injection H as H. apply set_le_nil_r in H.
      destruct d; [reflexivity | discriminate].
    + intros ->. reflexivity.
Qed.

Lemma Keys_validate_key_set_only_witness :
  validate (Keys [VStr "x"] [VStr "y"] false)
           (VDict [(VStr "x", VInt 1); (VStr "y", VInt 2)]) = Ret true
  /\ validate Fixtures.keys_spec (VDict [(VStr "x", VInt 1)])
     = validate Fixtures.keys_spec (VDict [(VStr "x", VStr "other")]).
Proof.
  split.
  - exact (proj1 (proj2 Keys_validate_key_set_only)
             [VStr "x"] [VStr "y"]
             [(VStr "x", VInt 1); (VStr "y", VInt 2)] eq_refl).
  - exact (proj1 (proj2 (proj2 Keys_validate_key_set_only))
             [VStr "x"] [VStr "y"] true
             [(VStr "x", VInt 1)] [(VStr "x", VStr "other")] eq_refl).
Defined.

(* ===================================================================== *)
(** ** Printing *)
(* ===================================================================== *)

Lemma py_map_returns {A B : Type} (f : A -> py B) (l : list A) :
  returns (py_map f l) <-> (forall x, In x l -> returns (f x)).
Proof.
  induction l as [| x l IH]; simpl.
  - split; [intros _ x [] | intros _; apply returns_Ret].
  - split.
    + intros [ys Hys] x' Hin.
      destruct (f x) as [y | z] eqn:Hfx; [| discriminate].
      simpl in Hys.
      destruct (py_map f l) as [ys' | z]; [| discriminate].
      destruct Hin as [<- | Hin]; [rewrite Hfx; apply returns_Ret |].
      apply IH; [apply returns_Ret | exact Hin].
    + intros H. destruct (H x (or_introl eq_refl)) as [y Hy].
      rewrite Hy. simpl.
      destruct (proj2 IH (fun x' Hin => H x' (or_intror Hin))) as [ys Hys].
      rewrite Hys. apply returns_Ret.
Qed.

Lemma bind_returns {A B : Type} (c : py A) (k : A -> py B) :
  returns (a <- c ;; k a) -> returns c.
Proof. destruct c; [intros _; apply returns_Ret | intros [b Hb]; discriminate]. Qed.

Section PrintingFacts.
Variable str_value : pyval -> string.
Variable repr_value : pyval -> string.
Variable str_frozenset : list pyval -> string.
Variable fn_name : (pyval -> py pyval) -> py string.

Lemma repr_has_alt (s : Spec) :
  has_alt s = true -> ~ returns (repr str_value str_frozenset fn_name s).
Proof.
  induction s as [pred | values | type | specs IH | specs IH | ts IH
                 | required optional strict | key c default IH]
    using Spec_nested_ind; simpl; try discriminate.
  - intros Hany Hret. unfold All_repr in Hret.
    apply bind_returns in Hret.
    pose proof (proj1 (py_map_returns _ _) Hret) as Hall.
    induction IH as [| c l Hc _ IHl]; [discriminate |].
    apply orb_true_iff in Hany. destruct Hany as [Hh | Hany].
    + apply (Hc Hh). apply Hall. now left.
    + apply IHl; [exact Hany | |].
      * apply py_map_returns. intros x Hin. apply Hall. now right.
      * intros x Hin. apply Hall. now right.
  - intros Hany Hret. unfold Chain_repr in Hret.
    apply bind_returns in Hret.
    pose proof (proj1 (py_map_returns _ _) Hret) as Hall.
    induction IH as [| c l Hc _ IHl]; [discriminate |].
    apply orb_true_iff in Hany. destruct Hany as [Hh | Hany].
    + apply (Hc Hh). apply Hall. now left.
    + apply IHl; [exact Hany | |].
      * apply py_map_returns. intros x Hin. apply Hall. now right.
      * intros x Hin. apply Hall. now right.
  - intros _. apply returns_Raise.
  - intros Hh Hret. unfold Key_repr in Hret.
    apply bind_returns in Hret. now apply IH.
Qed.

Lemma repr_no_alt (s : Spec) :
  (forall pred, returns (fn_name pred)) ->
  has_alt s = false -> returns (repr str_value str_frozenset fn_name s).
Proof.
  intros Hname.
  induction s as [pred | values | type | specs IH | specs IH | ts IH
                 | required optional strict | key c default IH]
    using Spec_nested_ind; simpl; try discriminate.
  - intros _. unfold Predicate_repr. destruct (Hname pred) as [n ->].
    apply returns_Ret.
  - intros _. apply returns_Ret.
  - intros _. apply returns_Ret.
  - intros Hany. unfold All_repr.
    assert (Hmap : returns (py_map (repr str_value str_frozenset fn_name)
                              specs)).
    { apply py_map_returns.
      induction IH as [| c l Hc _ IHl]; intros x Hin; [destruct Hin |].
      apply orb_false_iff in Hany. destruct Hany as [Hh Hany].
      destruct Hin as [<- | Hin]; [now apply Hc | now apply IHl]. }
    destruct Hmap as [parts ->]. apply returns_Ret.
  - intros Hany. unfold Chain_repr.
    assert (Hmap : returns (py_map (repr str_value str_frozenset fn_name)
                              specs)).
    { apply py_map_returns.
      induction IH as [| c l Hc _ IHl]; intros x Hin; [destruct Hin |].
      apply orb_false_iff in Hany. destruct Hany as [Hh Hany].
      destruct Hin as [<- | Hin]; [now apply Hc | now apply IHl]. }
    destruct Hmap as [parts ->]. apply returns_Ret.
  - intros _. apply returns_Ret.
  - intros Hh. unfold Key_repr. destruct (IH Hh) as [str ->].
    apply returns_Ret.
Qed.

(** X19.  [repr] of an [Alt] node always raises [AttributeError]:
    [Alt.__repr__] reads [self.specs], an attribute only [Chain] and [All]
    set ([Alt] stores [tagged_specs]).  Hence [repr] of a tree never
    returns when an [Alt] sits in it where printing reaches (below
    [Chain], [All] or [Key]), and returns for every other tree as long as
    the predicates have a [__name__]; and the error that [Alt.conform]
    reports cannot be rendered by [str] or [repr]. *)
Theorem repr_fails_exactly_on_Alt :
  (forall ts, repr str_value str_frozenset fn_name (Alt ts)
              = Raise AttributeError)
  /\ (forall s, has_alt s = true ->
                ~ returns (repr str_value str_frozenset fn_name s))
  /\ ((forall pred, returns (fn_name pred)) ->
      forall s, has_alt s = false ->
                returns (repr str_value str_frozenset fn_name s))
  /\ (forall ts v e,
        conform (Alt ts) v = Ret (Invalid e) ->
        ~ returns (SpecError_str str_value repr_value str_frozenset fn_name e)
        /\ ~ returns (SpecError_repr str_value repr_value str_frozenset
                        fn_name e)).
Proof.
  split; [reflexivity |].
  split; [exact repr_has_alt |].
  split; [intros Hname s; now apply repr_no_alt |].
  intros ts v e H.
  destruct (Alt_conform_inv (Alt ts) ts v _ H)
    as [[t [c [x [_ [_ Habs]]]]] | [He _]]; [discriminate |].
  injection He as ->.
  split; intros Hret; apply bind_returns in Hret;
    exact (returns_Raise AttributeError Hret).
Qed.
End PrintingFacts.

(** A chain holding the example [Alt] cannot be printed; the example
    [Chain] of two predicates named ["p"] can. *)
Lemma repr_fails_exactly_on_Alt_witness :
  ~ returns (repr (fun _ => "v") (fun _ => "s") (fun _ => Ret "p")
               (Chain [Predicate Fixtures.is_positive; Fixtures.alt_spec]))
  /\ returns (repr (fun _ => "v") (fun _ => "s") (fun _ => Ret "p")
                (Chain [Predicate Fixtures.is_positive;
                        Predicate Fixtures.is_even])).
Proof.
  split.
  - exact (proj1 (proj2 (repr_fails_exactly_on_Alt
                           (fun _ => "v") (fun _ => "r") (fun _ => "s")
                           (fun _ => Ret "p")))
             (Chain [Predicate Fixtures.is_positive; Fixtures.alt_spec])
             eq_refl).
  - refine (proj1 (proj2 (proj2 (repr_fails_exactly_on_Alt
                                   (fun _ => "v") (fun _ => "r")
                                   (fun _ => "s") (fun _ => Ret "p"))))
              _ (Chain [Predicate Fixtures.is_positive;
                        Predicate Fixtures.is_even]) eq_refl).
    intros pred. apply returns_Ret.
Defined.

(* ===================================================================== *)
(** ** Whole trees *)
(* ===================================================================== *)

(** X20.  For a whole tree of nodes and an input that fits it (predicates
    return, [Member] probes are hashable, [Keys] and [Key] nodes receive
    mappings, [Key] keys are hashable), with no assumption on the
    children: [conform(v)] returns a result [r] and [validate(v)] returns
    the boolean [r.is_valid()]. *)
Theorem validate_is_conform_is_valid_on_trees :
  forall (s : Spec) (v : pyval),
    fits s v ->
    exists r, conform s v = Ret r /\ validate s v = Ret (is_valid r).
Proof.
  intros s v Hfit.
  destruct (fits_returns s v Hfit) as [[r Hr] _].
  exists r. split; [exact Hr |].
  rewrite (fits_agree s v Hfit), Hr. reflexivity.
Qed.

(** A [Chain] of a [Keys] check and a [Key] under an [Alt], on a dict. *)
Lemma validate_is_conform_is_valid_on_trees_witness :
  exists r,
    conform (Chain [Fixtures.keys_spec;
                    Alt [(VStr "field", Fixtures.key_spec)]])
            (VDict [(VStr "x", VInt 1)]) = Ret r
    /\ validate (Chain [Fixtures.keys_spec;
                        Alt [(VStr "field", Fixtures.key_spec)]])
                (VDict [(VStr "x", VInt 1)]) = Ret (is_valid r).
Proof.
  apply validate_is_conform_is_valid_on_trees.
  simpl. split; [reflexivity |].
  intros x Hx. vm_compute in Hx. injection Hx as <-.
  split; [| intros; exact I].
  split; [| exact I]. split; [reflexivity |]. split; [reflexivity |].
  intros y Hy. apply returns_Ret.
Defined.
